(** * server/content-filter.py: teen-safe image content filter

    A shallow embedding of [server/content-filter.py] and the properties
    of its score aggregation, threshold policy, fail-closed error
    handling, lazy detector initialisation and command-line adapter.

    The script delegates image decoding and nudity detection to PIL,
    numpy and NudeNet.  Those collaborators are taken as parameters
    (class [Collaborators]); everything the script itself computes is
    modelled on the values Python computes on:

    - confidences are IEEE-754 binary64 values ([spec_float] of the
      standard library, with NaN, infinities and signed zeros);
    - [scores] is a Python dict: insertion ordered, one entry per key;
    - strings are sequences of code points below 256;
    - the module globals, standard output and standard error are fields
      of an explicit process state threaded through a small
      state-and-exception monad. *)

From Stdlib Require Import ZArith NArith List String Ascii Bool Lia Permutation.
From Stdlib Require Import DecimalString.
From Stdlib Require Import Floats.SpecFloat.
Import ListNotations.

Open Scope string_scope.
Open Scope Z_scope.

(* ================================================================= *)
(** ** Python numbers *)

Module PyNum.

(** Python's [float] is binary64: 53 bits of mantissa, infinities at
    exponent 1024. *)
Definition prec : Z := 53.
Definition emax : Z := 1024.

Definition float : Set := spec_float.

(** The numbers the script handles: the [int] literal [0] it stores at
    line 58 and the [float] confidences of the detector. *)
Inductive number : Type :=
| Int (z : Z)
| Float (f : float).

(** [float(z)], correctly rounded. *)
Definition float_of_int (z : Z) : float := binary_normalize prec emax z 0 false.

(** Comparison of a float with an int is exact in Python (the int is
    not converted to a float): [m * 2^e] is compared with [z] over the
    integers. *)
Definition compare_float_int (f : float) (z : Z) : option comparison :=
  match f with
  | S754_nan => None
  | S754_infinity s => Some (if s then Lt else Gt)
  | S754_zero _ => Some (0 ?= z)
  | S754_finite s m e =>
      let v := cond_Zopp s (Zpos m) in
      if 0 <=? e then Some (v * 2 ^ e ?= z) else Some (v ?= z * 2 ^ (- e))
  end.

(** [compare a b] is [None] when the operands are unordered (a NaN). *)
Definition compare (a b : number) : option comparison :=
  match a, b with
  | Int x, Int y => Some (x ?= y)
  | Float x, Float y => SFcompare x y
  | Float x, Int y => compare_float_int x y
  | Int x, Float y => option_map CompOpp (compare_float_int y x)
  end.

(** [a > b], [a <= b] and [a == b] of Python. *)
Definition gt (a b : number) : bool :=
  match compare a b with Some Gt => true | _ => false end.

Definition le (a b : number) : bool :=
  match compare a b with Some (Lt | Eq) => true | _ => false end.

Definition eq (a b : number) : bool :=
  match compare a b with Some Eq => true | _ => false end.

(** [max(a, b)]: the builtin keeps its first argument unless the second
    one is strictly greater. *)
Definition max (a b : number) : number := if gt b a then b else a.

(** The float literals of the script and of its documented examples,
    each the binary64 value nearest to the decimal. *)
Definition literal_0_2 : float := S754_finite false 7205759403792794 (-55).
Definition literal_0_3 : float := S754_finite false 5404319552844595 (-54).
Definition literal_0_25 : float := S754_finite false 4503599627370496 (-54).
Definition literal_0_9 : float := S754_finite false 8106479329266893 (-53).
Definition literal_0_95 : float := S754_finite false 8556839292003942 (-53).

(** [decimal n d]: the float Python reads from a decimal literal of
    value [n / d], that is [n / d] rounded to nearest even. *)
Definition decimal (n d : Z) : float :=
  SFdiv prec emax (float_of_int n) (float_of_int d).

(** The data model's range of a confidence, [0 <= c <= 1]. *)
Definition unit_interval (c : float) : bool :=
  le (Int 0) (Float c) && le (Float c) (Int 1).

End PyNum.

(* ================================================================= *)
(** ** Python strings *)

Module PyStr.

Definition dquote : ascii := "034"%char.
Definition squote : ascii := "039"%char.
Definition backslash : ascii := "092"%char.
Definition newline : ascii := "010"%char.

Definition char (c : ascii) : string := String c EmptyString.

Fixpoint flat_map (f : ascii -> string) (s : string) : string :=
  match s with
  | EmptyString => EmptyString
  | String c rest => f c ++ flat_map f rest
  end.

Fixpoint mem (c : ascii) (s : string) : bool :=
  match s with
  | EmptyString => false
  | String c' rest => Ascii.eqb c' c || mem c rest
  end.

(** Decimal digits of an integer, as [str(int)] prints them. *)
Definition digits (z : Z) : string := NilZero.string_of_int (Z.to_int z).

Definition hex_digit (n : N) : ascii :=
  match n with
  | 0 => "0" | 1 => "1" | 2 => "2" | 3 => "3" | 4 => "4" | 5 => "5"
  | 6 => "6" | 7 => "7" | 8 => "8" | 9 => "9" | 10 => "a" | 11 => "b"
  | 12 => "c" | 13 => "d" | 14 => "e" | _ => "f"
  end%N%char.

(** Two lower-case hexadecimal digits of a code point below 256. *)
Definition hex2 (n : N) : string :=
  String (hex_digit (n / 16)) (String (hex_digit (n mod 16)) EmptyString).

(** [str.isprintable] on the code points below 256. *)
Definition printable (n : N) : bool :=
  ((32 <=? n) && (n <=? 126) || (161 <=? n) && negb (n =? 173))%N.

Definition repr_char (quote c : ascii) : string :=
  let n := N_of_ascii c in
  if Ascii.eqb c quote || Ascii.eqb c backslash then String backslash (char c)
  else if (n =? 9)%N then String backslash "t"
  else if (n =? 10)%N then String backslash "n"
  else if (n =? 13)%N then String backslash "r"
  else if printable n then char c
  else String backslash ("x" ++ hex2 n).

(** [repr(s)]: single quotes unless the string holds a single quote and
    no double quote. *)
Definition repr (s : string) : string :=
  let quote := if mem squote s && negb (mem dquote s) then dquote else squote in
  String quote (flat_map (repr_char quote) s ++ char quote).

(** [n / d] rounded to the nearest integer, ties to even ([0 < d]). *)
Definition round_half_even (n d : Z) : Z :=
  let q := n / d in
  match 2 * (n mod d) ?= d with
  | Lt => q
  | Gt => q + 1
  | Eq => if Z.even q then q else q + 1
  end.

Definition sign (s : bool) : string := if s then "-" else "".

Definition two_digits (n : Z) : string :=
  (if n <? 10 then "0" else "") ++ digits n.

(** [format(f, '.2f')]: the exact value [m * 2^e] correctly rounded to
    two decimals, ties to even. *)
Definition format_2f_float (f : PyNum.float) : string :=
  match f with
  | S754_nan => "nan"
  | S754_infinity s => sign s ++ "inf"
  | S754_zero s => sign s ++ "0.00"
  | S754_finite s m e =>
      let n := if 0 <=? e then 100 * Zpos m * 2 ^ e
               else round_half_even (100 * Zpos m) (2 ^ (- e)) in
      sign s ++ digits (n / 100) ++ "." ++ two_digits (n mod 100)
  end.

(** [format(x, '.2f')]; an int is converted to a float first. *)
Definition format_2f (x : PyNum.number) : string :=
  match x with
  | PyNum.Int z => format_2f_float (PyNum.float_of_int z)
  | PyNum.Float f => format_2f_float f
  end.

End PyStr.

(* ================================================================= *)
(** ** Python dicts with string keys *)

Module PyDict.

(** Entries in insertion order, at most one per key. *)
Definition dict (V : Type) : Type := list (string * V).

Definition empty {V : Type} : dict V := [].

Fixpoint get {V : Type} (d : dict V) (k : string) : option V :=
  match d with
  | [] => None
  | (k', v) :: rest => if String.eqb k' k then Some v else get rest k
  end.

(** [k in d] *)
Definition contains {V : Type} (d : dict V) (k : string) : bool :=
  match get d k with Some _ => true | None => false end.

(** [d.get(k, default)] *)
Definition get_default {V : Type} (d : dict V) (k : string) (default : V) : V :=
  match get d k with Some v => v | None => default end.

(** [d[k] = v]: an existing key keeps its place, a new one goes last. *)
Fixpoint set {V : Type} (d : dict V) (k : string) (v : V) : dict V :=
  match d with
  | [] => [(k, v)]
  | (k', v') :: rest =>
      if String.eqb k' k then (k', v) :: rest else (k', v') :: set rest k v
  end.

Definition keys {V : Type} (d : dict V) : list string := map fst d.

End PyDict.

Import PyNum PyDict.

(* ================================================================= *)
(** ** Exceptions *)

(** Instances of [Exception].  [OtherException] stands for whatever a
    collaborator raises, carrying its [str(e)]. *)
Inductive exception : Type :=
| ImportError (msg : string)
| KeyError (key : string)
| IndexError (msg : string)
| AttributeError (msg : string)
| OtherException (text : string).

(** What a [raise] can carry: an [Exception], or the [SystemExit] of
    [sys.exit], which [except Exception] does not catch. *)
Inductive raised : Type :=
| Exc (e : exception)
| SystemExit (code : Z).

Definition str (e : exception) : string :=
  match e with
  | ImportError msg => msg
  | KeyError key => PyStr.repr key
  | IndexError msg => msg
  | AttributeError msg => msg
  | OtherException text => text
  end.

(** Outcome of code that either returns or raises [E]. *)
Inductive result (E A : Type) : Type :=
| Ok (a : A)
| Raise (e : E).

Arguments Ok {E A} a.
Arguments Raise {E A} e.

Definition bind_result {E A B : Type} (r : result E A) (k : A -> result E B)
  : result E B :=
  match r with
  | Ok a => k a
  | Raise e => Raise e
  end.

Notation "'let?' x := r 'in' k" := (bind_result r (fun x => k))
  (at level 10, x name, r at level 100, k at level 200).

(* ================================================================= *)
(** ** Data model *)

(** A detection as NudeNet returns it: a dict read at the keys ['class']
    and ['score'].  A missing key is [None]. *)
Record detection : Type := {
  class : option string;
  score : option float
}.

Definition Detection (label : string) (confidence : float) : detection :=
  {| class := Some label; score := Some confidence |}.

(** [detection['class']] and [detection['score']] *)
Definition getitem_class (d : detection) : result exception string :=
  match class d with Some l => Ok l | None => Raise (KeyError "class") end.

Definition getitem_score (d : detection) : result exception float :=
  match score d with Some c => Ok c | None => Raise (KeyError "score") end.

(** [d[k]] on a dict *)
Definition getitem {V : Type} (d : dict V) (k : string) : result exception V :=
  match get d k with Some v => Ok v | None => Raise (KeyError k) end.

(** The dict [{"appropriate": ..., "scores": ..., "message": ...}]. *)
Record verdict : Type := {
  appropriate : bool;
  scores : dict number;
  message : string
}.

(* ================================================================= *)
(** ** Score aggregation (lines 52-59) *)

(** One iteration of the loop over [detections]. *)
Definition aggregate_step (scores : dict number) (d : detection)
  : result exception (dict number) :=
  let? label := getitem_class d in
  let? confidence := getitem_score d in
  let scores := if negb (contains scores label)
                then set scores label (Int 0) else scores in
  let? current := getitem scores label in
  Ok (set scores label (max current (Float confidence))).

Fixpoint aggregate_from (scores : dict number) (detections : list detection)
  : result exception (dict number) :=
  match detections with
  | [] => Ok scores
  | d :: rest =>
      let? scores := aggregate_step scores d in
      aggregate_from scores rest
  end.

Definition aggregate (detections : list detection)
  : result exception (dict number) :=
  aggregate_from empty detections.

(* ================================================================= *)
(** ** Threshold policy (lines 61-101) *)

Definition explicit_threshold : float := literal_0_2.
Definition suggestive_threshold : float := literal_0_3.

Definition inappropriate_labels : list string :=
  [ "EXPOSED_ANUS"; "EXPOSED_ARMPITS"; "EXPOSED_BELLY"; "EXPOSED_BUTTOCKS";
    "EXPOSED_BREAST_F"; "EXPOSED_BREAST_M"; "EXPOSED_GENITALIA_F";
    "EXPOSED_GENITALIA_M"; "EXPOSED_FEET"; "FACE_F"; "FACE_M" ].

Definition high_risk_labels : list string :=
  [ "EXPOSED_ANUS"; "EXPOSED_BUTTOCKS"; "EXPOSED_BREAST_F";
    "EXPOSED_GENITALIA_F"; "EXPOSED_GENITALIA_M" ].

(** The loop of lines 78-84 over [labels]: [Some v] when it returns the
    verdict [v] from inside the loop, [None] when it runs to its end. *)
Fixpoint high_risk_loop (scores : dict number) (labels : list string)
  : result exception (option verdict) :=
  match labels with
  | [] => Ok None
  | label :: rest =>
      if gt (get_default scores label (Int 0)) (Float explicit_threshold) then
        let? confidence := getitem scores label in
        Ok (Some {| appropriate := false;
                    scores := scores;
                    message := "Inappropriate content detected: " ++ label
                               ++ " (confidence: "
                               ++ PyStr.format_2f confidence ++ ")" |})
      else high_risk_loop scores rest
  end.

(** Lines 61-101.  The moderate-risk loop of lines 87-94 is commented
    out in the source and has no counterpart here. *)
Definition evaluate (scores : dict number) : result exception verdict :=
  let? found := high_risk_loop scores high_risk_labels in
  match found with
  | Some v => Ok v
  | None => Ok {| appropriate := true;
                  scores := scores;
                  message := "Content appropriate for teen users" |}
  end.

(* ================================================================= *)
(** ** Collaborators *)

(** The code the script calls but does not define.  Each call either
    returns or raises an [Exception] whose [str] is recorded. *)
Class Collaborators : Type := {
  bytes : Type;
  Image : Type;
  ndarray : Type;
  NudeDetector : Type;
  (** [NudeDetector()]; the argument counts the constructions that came
      before in this process *)
  NudeDetector_new : nat -> result exception NudeDetector;
  (** [base64.b64decode(s)] *)
  b64decode : string -> result exception bytes;
  (** [Image.open(BytesIO(b))] *)
  Image_open : bytes -> result exception Image;
  (** [image.mode] *)
  mode : Image -> string;
  (** [image.convert(m)] *)
  convert : Image -> string -> result exception Image;
  (** [np.array(image)] *)
  np_array : Image -> result exception ndarray;
  (** [detector.detect(image_array)] *)
  detect : NudeDetector -> ndarray -> result exception (list detection);
  (** [float.__repr__], which [json.dumps] prints finite floats with *)
  float_repr : float -> string
}.

(* ================================================================= *)
(** ** json.dumps *)

Module Json.

(** One character of a string under [ensure_ascii=True]. *)
Definition escape_char (c : ascii) : string :=
  let n := N_of_ascii c in
  if Ascii.eqb c PyStr.dquote || Ascii.eqb c PyStr.backslash
  then String PyStr.backslash (PyStr.char c)
  else if (n =? 10)%N then String PyStr.backslash "n"
  else if (n =? 13)%N then String PyStr.backslash "r"
  else if (n =? 9)%N then String PyStr.backslash "t"
  else if (n =? 8)%N then String PyStr.backslash "b"
  else if (n =? 12)%N then String PyStr.backslash "f"
  else if ((32 <=? n) && (n <=? 126))%N then PyStr.char c
  else String PyStr.backslash ("u00" ++ PyStr.hex2 n).

Definition dumps_str (s : string) : string :=
  String PyStr.dquote (PyStr.flat_map escape_char s ++ PyStr.char PyStr.dquote).

Definition dumps_bool (b : bool) : string := if b then "true" else "false".

Definition dumps_float `{Collaborators} (f : float) : string :=
  match f with
  | S754_nan => "NaN"
  | S754_infinity s => PyStr.sign s ++ "Infinity"
  | _ => float_repr f
  end.

Definition dumps_number `{Collaborators} (x : number) : string :=
  match x with
  | Int z => PyStr.digits z
  | Float f => dumps_float f
  end.

(** An object from its members, each value already encoded. *)
Definition dumps_object (members : list (string * string)) : string :=
  "{" ++ String.concat ", "
           (map (fun kv => dumps_str (fst kv) ++ ": " ++ snd kv) members)
      ++ "}".

Definition dumps_scores `{Collaborators} (d : dict number) : string :=
  dumps_object (map (fun kv => (fst kv, dumps_number (snd kv))) d).

(** The members of a verdict dict, keys in the order of the literal,
    values encoded. *)
Definition members `{Collaborators} (v : verdict) : list (string * string) :=
  [ ("appropriate", dumps_bool (appropriate v));
    ("scores", dumps_scores (scores v));
    ("message", dumps_str (message v)) ].

(** [json.dumps] of a verdict dict. *)
Definition dumps `{Collaborators} (v : verdict) : string :=
  dumps_object (members v).

End Json.

(* ================================================================= *)
(** ** Process state and the monad of the script *)

(** Outcome of the module-level [try: ... except ImportError] of lines
    8-15: either [DEPS_AVAILABLE = True], or [DEPS_AVAILABLE = False]
    together with [IMPORT_ERROR]. *)
Inductive imports : Type :=
| Imported
| ImportFailed (IMPORT_ERROR : string).

Definition DEPS_AVAILABLE (i : imports) : bool :=
  match i with Imported => true | ImportFailed _ => false end.

(** The module globals and the two output streams.  [constructed] is a
    ghost counter of the calls to [NudeDetector()] made so far. *)
Record process `{Collaborators} : Type := {
  deps : imports;
  detector : option NudeDetector;
  stdout : string;
  stderr : string;
  constructed : nat
}.

(** The process right after the module is loaded (line 18). *)
Definition start `{Collaborators} (i : imports) : process :=
  {| deps := i; detector := None; stdout := ""; stderr := "";
     constructed := 0 |}.

Definition M `{Collaborators} (A : Type) : Type :=
  process -> result raised A * process.

Definition ret `{Collaborators} {A : Type} (a : A) : M A :=
  fun p => (Ok a, p).

Definition bind `{Collaborators} {A B : Type} (m : M A) (k : A -> M B) : M B :=
  fun p =>
    match m p with
    | (Ok a, p') => k a p'
    | (Raise e, p') => (Raise e, p')
    end.

Definition raise `{Collaborators} {A : Type} (e : raised) : M A :=
  fun p => (Raise e, p).

(** A call that does not touch the process state. *)
Definition call `{Collaborators} {A : Type} (r : result exception A) : M A :=
  fun p =>
    match r with
    | Ok a => (Ok a, p)
    | Raise e => (Raise (Exc e), p)
    end.

(** [try: body except Exception as e: handler(e)].  State changes made
    by [body] before it raised are kept; [SystemExit] passes through. *)
Definition try_except `{Collaborators} {A : Type}
  (body : M A) (handler : exception -> M A) : M A :=
  fun p =>
    match body p with
    | (Ok a, p') => (Ok a, p')
    | (Raise (Exc e), p') => handler e p'
    | (Raise (SystemExit c), p') => (Raise (SystemExit c), p')
    end.

Declare Scope proc_scope.
Delimit Scope proc_scope with proc.

Notation "x <- m ;; k" := (bind m (fun x => k))
  (at level 61, m at next level, right associativity) : proc_scope.
Notation "m ;; k" := (bind m (fun _ => k))
  (at level 61, right associativity) : proc_scope.

(** [print(s)] and [print(s, file=sys.stderr)] *)
Definition print `{Collaborators} (s : string) : M unit :=
  fun p => (Ok tt, {| deps := deps p; detector := detector p;
                      stdout := stdout p ++ s ++ PyStr.char PyStr.newline;
                      stderr := stderr p;
                      constructed := constructed p |}).

Definition print_stderr `{Collaborators} (s : string) : M unit :=
  fun p => (Ok tt, {| deps := deps p; detector := detector p;
                      stdout := stdout p;
                      stderr := stderr p ++ s ++ PyStr.char PyStr.newline;
                      constructed := constructed p |}).

Definition read_deps `{Collaborators} : M imports :=
  fun p => (Ok (deps p), p).

Definition read_detector `{Collaborators} : M (option NudeDetector) :=
  fun p => (Ok (detector p), p).

(** [detector = d] *)
Definition write_detector `{Collaborators} (d : NudeDetector) : M unit :=
  fun p => (Ok tt, {| deps := deps p; detector := Some d;
                      stdout := stdout p; stderr := stderr p;
                      constructed := constructed p |}).

(** [NudeDetector()] *)
Definition construct `{Collaborators} : M NudeDetector :=
  fun p =>
    let p' := {| deps := deps p; detector := detector p;
                 stdout := stdout p; stderr := stderr p;
                 constructed := S (constructed p) |} in
    match NudeDetector_new (constructed p) with
    | Ok d => (Ok d, p')
    | Raise e => (Raise (Exc e), p')
    end.

(** [sys.exit(code)] *)
Definition sys_exit `{Collaborators} {A : Type} (code : Z) : M A :=
  raise (SystemExit code).

(* ================================================================= *)
(** ** The script *)

Open Scope proc_scope.

(** Lines 20-27. *)
Definition init_detector `{Collaborators} : M unit :=
  d <- read_deps ;;
  match d with
  | ImportFailed IMPORT_ERROR =>
      raise (Exc (ImportError
                    ("Required dependencies not available: " ++ IMPORT_ERROR)))
  | Imported =>
      h <- read_detector ;;
      match h with
      | None =>
          new <- construct ;;
          write_detector new ;;
          print_stderr "NudeNet detector initialized"
      | Some _ => ret tt
      end
  end.

(** [detector.detect(image_array)] on the global [detector]. *)
Definition detector_detect `{Collaborators} (image_array : ndarray)
  : M (list detection) :=
  h <- read_detector ;;
  match h with
  | Some d => call (detect d image_array)
  | None =>
      raise (Exc (AttributeError
                    "'NoneType' object has no attribute 'detect'"))
  end.

(** Lines 105-109. *)
Definition fail_closed (e : exception) : verdict :=
  {| appropriate := false;
     scores := empty;
     message := "Content filtering error: " ++ str e |}.

(** Lines 29-109. *)
Definition check_image_content `{Collaborators} (image_data_base64 : string)
  : M verdict :=
  try_except
    (init_detector ;;
     image_bytes <- call (b64decode image_data_base64) ;;
     image <- call (Image_open image_bytes) ;;
     image <- (if negb (String.eqb (mode image) "RGB")
               then call (convert image "RGB") else ret image) ;;
     image_array <- call (np_array image) ;;
     detections <- detector_detect image_array ;;
     scores <- call (aggregate detections) ;;
     call (evaluate scores))
    (fun e => ret (fail_closed e)).

(** Lines 114-118. *)
Definition usage : verdict :=
  {| appropriate := false;
     scores := empty;
     message := "Usage: python content-filter.py <base64_image_data>" |}.

(** Lines 111-123; [argv] is [sys.argv], the script name first. *)
Definition main `{Collaborators} (argv : list string) : M unit :=
  if negb (Nat.eqb (List.length argv) 2) then
    print (Json.dumps usage) ;;
    sys_exit 1
  else
    image_data <- match nth_error argv 1 with
                  | Some a => ret a
                  | None => raise (Exc (IndexError "list index out of range"))
                  end ;;
    result <- check_image_content image_data ;;
    print (Json.dumps result).

(** Exit status of the interpreter after [main()]: 0 when it returns,
    the code of a [SystemExit], 1 after an uncaught exception. *)
Definition exit_status {A : Type} (r : result raised A) : Z :=
  match r with
  | Ok _ => 0
  | Raise (SystemExit code) => code
  | Raise (Exc _) => 1
  end.

Close Scope proc_scope.

(* ================================================================= *)
(** ** Vocabulary of the statements *)

(** A float strictly above the int [0]: [+inf] or a positive finite. *)
Definition positive_float (f : float) : bool :=
  match f with
  | S754_infinity false | S754_finite false _ _ => true
  | _ => false
  end.

(** A detection with both keys and a confidence in the range of the
    data model. *)
Definition well_formed (d : detection) : Prop :=
  exists label confidence, d = Detection label confidence.

Definition in_range (d : detection) : Prop :=
  exists label confidence,
    d = Detection label confidence /\ unit_interval confidence = true.

(** The confidences of the detections carrying [label], in order. *)
Fixpoint confidences (label : string) (ds : list detection) : list float :=
  match ds with
  | [] => []
  | d :: rest =>
      match class d, score d with
      | Some l, Some c =>
          if String.eqb l label then c :: confidences label rest
          else confidences label rest
      | _, _ => confidences label rest
      end
  end.

(** [max(... max(max(a, c1), c2) ..., cn)] *)
Definition running_max (cs : list float) (a : number) : number :=
  fold_left (fun a c => max a (Float c)) cs a.

(** [v] equals ([==]) one of [cs] and none of [cs] exceeds it. *)
Definition is_maximum (v : number) (cs : list float) : Prop :=
  (exists c, In c cs /\ eq v (Float c) = true) /\
  (forall c, In c cs -> le (Float c) v = true).

(** [scores.get(label, 0)] *)
Definition confidence_of (scores : dict number) (label : string) : number :=
  get_default scores label (Int 0).

(** [label] is the first of [labels] whose confidence exceeds the
    explicit threshold. *)
Definition first_offender (scores : dict number) (labels : list string)
  (label : string) : Prop :=
  exists before after,
    labels = (before ++ label :: after)%list /\
    (forall l, In l before ->
       gt (confidence_of scores l) (Float explicit_threshold) = false) /\
    gt (confidence_of scores label) (Float explicit_threshold) = true.

(** Lines 38-49 for a detector [h]: everything between initialisation
    and aggregation. *)
Definition detections_of `{Collaborators} (h : NudeDetector)
  (image_data_base64 : string) : result exception (list detection) :=
  let? image_bytes := b64decode image_data_base64 in
  let? image := Image_open image_bytes in
  let? image := (if negb (String.eqb (mode image) "RGB")
                 then convert image "RGB" else Ok image) in
  let? image_array := np_array image in
  detect h image_array.

Definition no_newline (s : string) : Prop := PyStr.mem PyStr.newline s = false.

(** What the loop leaves at a label whose confidences are [cs]: the int
    [0] when none of them is positive, the greatest positive one
    otherwise. *)
Definition greatest_or_zero (cs : list float) (r : number) : Prop :=
  (r = Int 0 /\ forall c, In c cs -> positive_float c = false) \/
  (exists c, r = Float c /\ In c cs /\ positive_float c = true /\
             forall c', In c' cs -> SFltb c c' = false).

(** The process after a first, successful initialisation that built
    [d]. *)
Definition initialised `{Collaborators} (p : process) (d : NudeDetector)
  : process :=
  {| deps := deps p; detector := Some d; stdout := stdout p;
     stderr := stderr p ++ "NudeNet detector initialized"
                        ++ PyStr.char PyStr.newline;
     constructed := S (constructed p) |}.

(** The process after a construction that raised. *)
Definition attempted `{Collaborators} (p : process) : process :=
  {| deps := deps p; detector := detector p; stdout := stdout p;
     stderr := stderr p; constructed := S (constructed p) |}.

(** What lines 38-101 return or raise once the detector is [h]. *)
Definition classify `{Collaborators} (h : NudeDetector)
  (image_data_base64 : string) : result exception verdict :=
  let? detections := detections_of h image_data_base64 in
  let? scores := aggregate detections in
  evaluate scores.

(** The [except] clause applied to an outcome of the [try] suite. *)
Definition caught (r : result exception verdict) : verdict :=
  match r with
  | Ok v => v
  | Raise e => fail_closed e
  end.

(** The verdict of lines 80-84 for [label] at confidence [c], and the
    verdict of lines 97-101. *)
Definition rejected (scores : dict number) (label : string) (c : number)
  : verdict :=
  {| appropriate := false;
     scores := scores;
     message := "Inappropriate content detected: " ++ label
                ++ " (confidence: " ++ PyStr.format_2f c ++ ")" |}.

Definition accepted (scores : dict number) : verdict :=
  {| appropriate := true;
     scores := scores;
     message := "Content appropriate for teen users" |}.

(** Lines 42-43 and lines 38-46. *)
Definition rgb `{Collaborators} (image : Image) : result exception Image :=
  if negb (String.eqb (mode image) "RGB") then convert image "RGB"
  else Ok image.

Definition parse_image `{Collaborators} (image_bytes : bytes)
  : result exception ndarray :=
  let? image := Image_open image_bytes in
  let? image := rgb image in
  np_array image.

Definition pixels `{Collaborators} (image_data_base64 : string)
  : result exception ndarray :=
  let? image_bytes := b64decode image_data_base64 in
  parse_image image_bytes.

(** [init_detector] returns in [p], leaving the process [p1] with the
    detector [h]. *)
Definition ready `{Collaborators} (p p1 : process) (h : NudeDetector) : Prop :=
  init_detector p = (Ok tt, p1) /\ detector p1 = Some h.

(** [raises x p e]: on the input [x] in the process [p], a stage of
    [check_image_content] raises [e]. *)
Inductive raises `{Collaborators} (x : string) (p : process)
  : exception -> Prop :=
| raises_dependency_check (err : string) :
    deps p = ImportFailed err ->
    raises x p (ImportError ("Required dependencies not available: " ++ err))
| raises_initialisation (e : exception) :
    deps p = Imported -> detector p = None ->
    NudeDetector_new (constructed p) = Raise e ->
    raises x p e
| raises_base64 (p1 : process) (h : NudeDetector) (e : exception) :
    ready p p1 h -> b64decode x = Raise e -> raises x p e
| raises_image (p1 : process) (h : NudeDetector) (b : bytes) (e : exception) :
    ready p p1 h -> b64decode x = Ok b -> parse_image b = Raise e ->
    raises x p e
| raises_detection (p1 : process) (h : NudeDetector) (a : ndarray)
    (e : exception) :
    ready p p1 h -> pixels x = Ok a -> detect h a = Raise e -> raises x p e
| raises_aggregation (p1 : process) (h : NudeDetector) (ds : list detection)
    (e : exception) :
    ready p p1 h -> detections_of h x = Ok ds -> aggregate ds = Raise e ->
    raises x p e.

(** The process after [print(line)]. *)
Definition printed `{Collaborators} (p : process) (line : string) : process :=
  {| deps := deps p; detector := detector p;
     stdout := stdout p ++ line ++ PyStr.char PyStr.newline;
     stderr := stderr p;
     constructed := constructed p |}.

(** A verdict as the program builds them: a non-empty message and a
    score map with one entry per label. *)
Definition well_shaped (v : verdict) : Prop :=
  message v <> "" /\ NoDup (keys (scores v)).

(** [init_detector] when [b] holds, nothing otherwise. *)
Definition init_detector_if `{Collaborators} (b : bool) : M unit :=
  if b then init_detector else ret tt.

(** The detections and the scores of the two documented examples. *)
Definition breast_and_face : list detection :=
  [ Detection "EXPOSED_BREAST_F" literal_0_25; Detection "FACE_F" literal_0_9 ].

Definition breast_and_face_scores : dict number :=
  [ ("EXPOSED_BREAST_F", Float literal_0_25); ("FACE_F", Float literal_0_9) ].

Definition armpits : list detection :=
  [ Detection "EXPOSED_ARMPITS" literal_0_95 ].

Definition armpits_scores : dict number :=
  [ ("EXPOSED_ARMPITS", Float literal_0_95) ].

(** Three detections and a permutation of them. *)
Definition sample_detections : list detection :=
  [ Detection "FACE_F" literal_0_25;
    Detection "EXPOSED_BELLY" literal_0_9;
    Detection "FACE_F" literal_0_95 ].

Definition sample_permuted : list detection :=
  [ Detection "FACE_F" literal_0_95;
    Detection "FACE_F" literal_0_25;
    Detection "EXPOSED_BELLY" literal_0_9 ].

(** Stand-ins for the collaborators, for concrete runs: the payload is
    its own image, a payload whose length is no multiple of four does
    not decode, an empty one is no image, and the detector answers the
    two documented examples on the payloads [bust] and [arms] and
    nothing on any other.  [demo_float_repr] prints the floats of the
    examples as [float.__repr__] does and any other with two decimals. *)
Definition demo_float_repr (f : float) : string :=
  if SFeqb f literal_0_25 then "0.25"
  else if SFeqb f literal_0_9 then "0.9"
  else if SFeqb f literal_0_95 then "0.95"
  else PyStr.format_2f_float f.

Definition demo_detect (image_array : string) : list detection :=
  if String.eqb image_array "bust" then breast_and_face
  else if String.eqb image_array "arms" then armpits
  else [].

Definition demo : Collaborators := {|
  bytes := string;
  Image := string;
  ndarray := string;
  NudeDetector := unit;
  NudeDetector_new := fun _ => Ok tt;
  b64decode := fun s =>
    if Nat.eqb (Nat.modulo (String.length s) 4) 0 then Ok s
    else Raise (OtherException "Incorrect padding");
  Image_open := fun b =>
    if String.eqb b "" then Raise (OtherException "cannot identify image file")
    else Ok b;
  mode := fun _ => "RGB";
  convert := fun image _ => Ok image;
  np_array := fun image => Ok image;
  detect := fun _ image_array => Ok (demo_detect image_array);
  float_repr := demo_float_repr
|}.

(** [s] between double quotes. *)
Definition quoted (s : string) : string :=
  PyStr.char PyStr.dquote ++ s ++ PyStr.char PyStr.dquote.

(** The demo process right after the module is loaded, and after its
    first initialisation. *)
Definition demo_start : @process demo := @start demo Imported.

Definition demo_ready : @process demo := @initialised demo demo_start tt.

(** The key whose absence makes the loop raise on [d], if any: the loop
    reads ['class'] before ['score']. *)
Definition missing_key (d : detection) : option string :=
  match class d, score d with
  | None, _ => Some "class"
  | Some _, None => Some "score"
  | Some _, Some _ => None
  end.

(** The labels of [ds] not in [seen], each once, in the order of their
    first detection. *)
Fixpoint first_seen (seen : list string) (ds : list detection) : list string :=
  match ds with
  | [] => []
  | d :: rest =>
      match class d with
      | Some l =>
          if existsb (String.eqb l) seen then first_seen seen rest
          else l :: first_seen (l :: seen) rest
      | None => first_seen seen rest
      end
  end.

(** The verdict as a caller reads it apart from the scores. *)
Definition outcome (v : verdict) : bool * string := (appropriate v, message v).

(** A detection of a high-risk label above the explicit threshold. *)
Definition offending (d : detection) : Prop :=
  exists l c, d = Detection l c /\ In l high_risk_labels /\
              gt (Float c) (Float explicit_threshold) = true.

(** The entry of a label in the scores of two batches put together. *)
Definition merge (a b : option number) : option number :=
  match a, b with
  | Some x, Some y => Some (max x y)
  | Some x, None => Some x
  | None, b => b
  end.

(** The process after [check_image_content] has run on each of [xs] in
    turn. *)
Fixpoint requests `{Collaborators} (xs : list string) (p : process) : process :=
  match xs with
  | [] => p
  | x :: rest => requests rest (snd (check_image_content x p))
  end.

(** Detections with a NaN and a negative confidence among them. *)
Definition odd_detections : list detection :=
  [ Detection "EXPOSED_ANUS" S754_nan;
    Detection "FACE_F" (S754_finite true 4503599627370496 (-54));
    Detection "EXPOSED_BUTTOCKS" literal_0_2;
    Detection "FACE_F" literal_0_9 ].

(** Collaborators whose first construction of the detector fails and
    whose later ones succeed; the rest as in [demo]. *)
Definition flaky : Collaborators := {|
  bytes := string;
  Image := string;
  ndarray := string;
  NudeDetector := unit;
  NudeDetector_new := fun n =>
    match n with
    | O => Raise (OtherException "model file not found")
    | S _ => Ok tt
    end;
  b64decode := @b64decode demo;
  Image_open := @Image_open demo;
  mode := @mode demo;
  convert := @convert demo;
  np_array := @np_array demo;
  detect := @detect demo;
  float_repr := demo_float_repr
|}.

(** The first documented example without its [FACE_F] entry, and two
    batches of detections. *)
Definition breast_scores : dict number :=
  [ ("EXPOSED_BREAST_F", Float literal_0_25) ].

Definition first_batch : list detection :=
  [ Detection "FACE_F" literal_0_25; Detection "EXPOSED_BELLY" literal_0_9 ].

Definition second_batch : list detection :=
  [ Detection "FACE_F" literal_0_95; Detection "EXPOSED_BREAST_F" literal_0_25 ].

(** A detection without its ['score'], and collaborators whose detector
    reports it between two others; the rest as in [demo]. *)
Definition scoreless : detection :=
  {| class := Some "EXPOSED_ANUS"; score := None |}.

Definition broken : Collaborators := {|
  bytes := string;
  Image := string;
  ndarray := string;
  NudeDetector := unit;
  NudeDetector_new := fun _ => Ok tt;
  b64decode := @b64decode demo;
  Image_open := @Image_open demo;
  mode := @mode demo;
  convert := @convert demo;
  np_array := @np_array demo;
  detect := fun _ _ =>
    Ok ([ Detection "FACE_F" literal_0_9 ] ++ scoreless :: breast_and_face)%list;
  float_repr := demo_float_repr
|}.

(** The verdict of an outcome, the usage verdict when it raised. *)
Definition fst_verdict (r : result raised verdict) : verdict :=
  match r with
  | Ok v => v
  | Raise _ => usage
  end.

(* ================================================================= *)
(** * Properties *)

(** ** The float literals *)

Lemma literal_0_2_nearest : literal_0_2 = decimal 2 10.
Proof. vm_compute. reflexivity. Qed.

Lemma literal_0_3_nearest : literal_0_3 = decimal 3 10.
Proof. vm_compute. reflexivity. Qed.

Lemma literal_0_25_nearest : literal_0_25 = decimal 25 100.
Proof. vm_compute. reflexivity. Qed.

Lemma literal_0_9_nearest : literal_0_9 = decimal 9 10.
Proof. vm_compute. reflexivity. Qed.

Lemma literal_0_95_nearest : literal_0_95 = decimal 95 100.
Proof. vm_compute. reflexivity. Qed.

(** ** Order of the floats *)

Lemma SFcompare_swap (a b : float) :
  SFcompare b a = option_map CompOpp (SFcompare a b).
Proof.
  destruct a as [sa|sa| |sa ma ea], b as [sb|sb| |sb mb eb]; simpl;
    try reflexivity;
    try (destruct sa; reflexivity); try (destruct sb; reflexivity);
    try (destruct sa, sb; reflexivity).
  destruct sa, sb; simpl; try reflexivity;
    rewrite (Z.compare_antisym ea eb);
    destruct (ea ?= eb); simpl; try reflexivity;
    change (Pos.compare_cont Eq mb ma) with (Pos.compare mb ma);
    change (Pos.compare_cont Eq ma mb) with (Pos.compare ma mb);
    rewrite (Pos.compare_antisym ma mb); destruct (ma ?= mb)%positive; reflexivity.
Qed.

Lemma positive_float_above (a c : float) :
  positive_float a = true -> SFltb a c = true -> positive_float c = true.
Proof.
  unfold SFltb.
  destruct a as [sa|sa| |sa ma ea], c as [sc|sc| |sc mc ec]; simpl;
    try discriminate; try (destruct sa; discriminate);
    try (destruct sa, sc; simpl; congruence).
Qed.

Lemma SFltb_trans_positive (a b c : float) :
  positive_float a = true ->
  SFltb a b = true -> SFltb b c = true -> SFltb a c = true.
Proof.
  intros Ha Hab Hbc.
  pose proof (positive_float_above _ _ Ha Hab) as Hb.
  pose proof (positive_float_above _ _ Hb Hbc) as Hc.
  revert Hab Hbc. unfold SFltb.
  destruct a as [sa|sa| |sa ma ea]; try discriminate;
    destruct b as [sb|sb| |sb mb eb]; try discriminate;
    destruct c as [sc|sc| |sc mc ec]; try discriminate;
    destruct sa, sb, sc; try discriminate; simpl; try congruence.
  change (Pos.compare_cont Eq ma mb) with (Pos.compare ma mb).
  change (Pos.compare_cont Eq mb mc) with (Pos.compare mb mc).
  change (Pos.compare_cont Eq ma mc) with (Pos.compare ma mc).
  destruct (Z.compare_spec ea eb), (Z.compare_spec eb ec),
    (Z.compare_spec ea ec); try discriminate; try lia; try reflexivity;
    destruct (Pos.compare_spec ma mb), (Pos.compare_spec mb mc),
      (Pos.compare_spec ma mc); try discriminate; try lia; reflexivity.
Qed.

Lemma SFltb_total_positive (a b : float) :
  positive_float a = true -> positive_float b = true ->
  SFltb a b = false -> SFltb b a = false -> a = b.
Proof.
  unfold SFltb.
  destruct a as [sa|sa| |sa ma ea]; try discriminate;
    destruct b as [sb|sb| |sb mb eb]; try discriminate;
    destruct sa, sb; try discriminate; simpl; try congruence.
  change (Pos.compare_cont Eq ma mb) with (Pos.compare ma mb).
  change (Pos.compare_cont Eq mb ma) with (Pos.compare mb ma).
  intros _ _.
  destruct (Z.compare_spec ea eb), (Z.compare_spec eb ea);
    try discriminate; try lia;
    destruct (Pos.compare_spec ma mb), (Pos.compare_spec mb ma);
    try discriminate; try lia.
  intros _ _. subst. reflexivity.
Qed.

Lemma SFcompare_refl_positive (a : float) :
  positive_float a = true -> SFcompare a a = Some Eq.
Proof.
  destruct a as [sa|sa| |sa ma ea]; try discriminate;
    destruct sa; try discriminate; simpl; intros _; try reflexivity.
  rewrite Z.compare_refl.
  change (Pos.compare_cont Eq ma ma) with (Pos.compare ma ma).
  rewrite Pos.compare_refl. reflexivity.
Qed.

Lemma gt_Float_Int_0 (f : float) :
  gt (Float f) (Int 0) = positive_float f.
Proof.
  unfold gt, compare, compare_float_int.
  destruct f as [s|s| |s m e]; try reflexivity.
  - destruct s; reflexivity.
  - destruct (0 <=? e) eqn:He.
    + apply Z.leb_le in He.
      pose proof (Z.pow_pos_nonneg 2 e ltac:(lia) He) as Hp.
      destruct (2 ^ e); try lia.
      destruct s; reflexivity.
    + destruct s; reflexivity.
Qed.

Lemma SFltb_irrefl (a : float) : SFltb a a = false.
Proof.
  unfold SFltb. pose proof (SFcompare_swap a a) as H.
  destruct (SFcompare a a) as [[]|]; simpl in H; congruence.
Qed.

(** ** The builtin [max] on the accumulators of the loop *)

Lemma max_Int_0 (c : float) :
  max (Int 0) (Float c) = if positive_float c then Float c else Int 0.
Proof. unfold max. rewrite gt_Float_Int_0. reflexivity. Qed.

Lemma max_Float (a c : float) :
  max (Float a) (Float c) = if SFltb a c then Float c else Float a.
Proof.
  unfold max, gt, SFltb. simpl. rewrite (SFcompare_swap a c).
  destruct (SFcompare a c) as [[]|]; reflexivity.
Qed.

Lemma running_max_snoc (cs : list float) (c : float) (a : number) :
  running_max (cs ++ [c]) a = max (running_max cs a) (Float c).
Proof. unfold running_max. rewrite fold_left_app. reflexivity. Qed.

Lemma running_max_spec (cs : list float) :
  greatest_or_zero cs (running_max cs (Int 0)).
Proof.
  induction cs as [|c cs IH] using rev_ind.
  - left. split; [reflexivity | intros c []].
  - rewrite running_max_snoc.
    destruct IH as [[-> Hnone] | (m & -> & Hin & Hpos & Hmax)].
    + rewrite max_Int_0. destruct (positive_float c) eqn:Hc.
      * right. exists c. repeat split; auto.
        { apply in_or_app. right. left. reflexivity. }
        intros c' Hc'. apply in_app_or in Hc'. destruct Hc' as [Hc' | [<- | []]].
        { destruct (SFltb c c') eqn:Hlt; [|reflexivity].
          pose proof (Hnone c' Hc') as Hn.
          rewrite (positive_float_above _ _ Hc Hlt) in Hn. discriminate. }
        { apply SFltb_irrefl. }
      * left. split; [reflexivity|].
        intros c' Hc'. apply in_app_or in Hc'. destruct Hc' as [Hc' | [<- | []]]; auto.
    + rewrite max_Float. destruct (SFltb m c) eqn:Hmc.
      * right. exists c. repeat split.
        { apply in_or_app. right. left. reflexivity. }
        { exact (positive_float_above _ _ Hpos Hmc). }
        intros c' Hc'. apply in_app_or in Hc'. destruct Hc' as [Hc' | [<- | []]].
        { destruct (SFltb c c') eqn:Hlt; [|reflexivity].
          pose proof (Hmax c' Hc') as Hn.
          rewrite (SFltb_trans_positive _ _ _ Hpos Hmc Hlt) in Hn. discriminate. }
        { apply SFltb_irrefl. }
      * right. exists m. repeat split; auto.
        { apply in_or_app. left. exact Hin. }
        intros c' Hc'. apply in_app_or in Hc'. destruct Hc' as [Hc' | [<- | []]]; auto.
Qed.

Lemma greatest_or_zero_unique (cs : list float) (r r' : number) :
  greatest_or_zero cs r -> greatest_or_zero cs r' -> r = r'.
Proof.
  intros [[-> Hnone] | (m & -> & Hin & Hpos & Hmax)]
         [[-> Hnone'] | (m' & -> & Hin' & Hpos' & Hmax')].
  - reflexivity.
  - rewrite (Hnone _ Hin') in Hpos'. discriminate.
  - rewrite (Hnone' _ Hin) in Hpos. discriminate.
  - f_equal. apply SFltb_total_positive; auto.
Qed.

Lemma greatest_or_zero_members (cs cs' : list float) (r : number) :
  (forall c, In c cs <-> In c cs') ->
  greatest_or_zero cs r -> greatest_or_zero cs' r.
Proof.
  intros Heq [[-> Hnone] | (m & -> & Hin & Hpos & Hmax)].
  - left. split; [reflexivity|]. intros c Hc. apply Hnone, Heq, Hc.
  - right. exists m. repeat split; auto.
    + apply Heq, Hin.
    + intros c Hc. apply Hmax, Heq, Hc.
Qed.

Lemma running_max_Permutation (cs cs' : list float) :
  Permutation cs cs' -> running_max cs (Int 0) = running_max cs' (Int 0).
Proof.
  intros HP. apply (greatest_or_zero_unique cs').
  - apply (greatest_or_zero_members cs); [|apply running_max_spec].
    intros c. split; intros Hc.
    + exact (Permutation_in _ HP Hc).
    + exact (Permutation_in _ (Permutation_sym HP) Hc).
  - apply running_max_spec.
Qed.

Lemma unit_interval_not_nan (c : float) :
  unit_interval c = true -> c <> S754_nan.
Proof. intros H ->. discriminate. Qed.

Lemma unit_interval_zero (c : float) :
  unit_interval c = true -> positive_float c = false ->
  compare (Float c) (Int 0) = Some Eq.
Proof.
  intros Hr Hp. rewrite <- gt_Float_Int_0 in Hp.
  apply andb_prop in Hr. destruct Hr as [Hr _].
  unfold le, gt in *. simpl in *.
  destruct (compare_float_int c 0) as [[]|]; simpl in *; congruence.
Qed.

Lemma running_max_is_maximum (cs : list float) :
  cs <> [] -> (forall c, In c cs -> unit_interval c = true) ->
  is_maximum (running_max cs (Int 0)) cs.
Proof.
  intros Hne Hr.
  destruct (running_max_spec cs) as [[-> Hnone] | (m & -> & Hin & Hpos & Hmax)].
  - split.
    + destruct cs as [|c0 cs]; [congruence|].
      exists c0. split; [left; reflexivity|].
      pose proof (unit_interval_zero c0 (Hr _ (or_introl Logic.eq_refl))
                    (Hnone _ (or_introl Logic.eq_refl))) as H0.
      unfold eq. simpl in *. rewrite H0. reflexivity.
    + intros c Hc. unfold le.
      rewrite (unit_interval_zero c (Hr _ Hc) (Hnone _ Hc)). reflexivity.
  - split.
    + exists m. split; [exact Hin|].
      unfold eq. simpl. rewrite (SFcompare_refl_positive _ Hpos). reflexivity.
    + intros c Hc. pose proof (Hmax _ Hc) as Hlt.
      pose proof (unit_interval_not_nan _ (Hr _ Hc)) as Hnan.
      unfold le. simpl. rewrite (SFcompare_swap m c).
      unfold SFltb in Hlt.
      destruct m as [sm|sm| |sm mm em]; try discriminate;
        destruct c as [sc|sc| |sc mc ec]; try congruence;
        destruct (SFcompare _ _) as [[]|] eqn:E; simpl in *;
        try reflexivity; try discriminate;
        destruct sm; try discriminate; destruct sc; discriminate.
Qed.

(** ** Dict lookups *)

Lemma get_set_same {V : Type} (d : dict V) (k : string) (v : V) :
  get (set d k v) k = Some v.
Proof.
  induction d as [|[k' v'] d IH]; simpl.
  - rewrite String.eqb_refl. reflexivity.
  - destruct (String.eqb k' k) eqn:E; simpl; rewrite E; auto.
Qed.

Lemma get_set_other {V : Type} (d : dict V) (k k' : string) (v : V) :
  k <> k' -> get (set d k v) k' = get d k'.
Proof.
  intros Hne. induction d as [|[k0 v0] d IH]; simpl.
  - destruct (String.eqb_spec k k'); [contradiction | reflexivity].
  - destruct (String.eqb_spec k0 k) as [-> | Hk]; simpl.
    + destruct (String.eqb_spec k k'); [contradiction | reflexivity].
    + rewrite IH. reflexivity.
Qed.

Lemma keys_set {V : Type} (d : dict V) (k : string) (v : V) :
  keys (set d k v) = if contains d k then keys d else (keys d ++ [k])%list.
Proof.
  unfold contains. induction d as [|[k' v'] d IH]; simpl; [reflexivity|].
  destruct (String.eqb_spec k' k) as [-> | Hk]; simpl; [reflexivity|].
  rewrite IH. destruct (get d k); reflexivity.
Qed.

Lemma contains_keys {V : Type} (d : dict V) (k : string) :
  contains d k = true <-> In k (keys d).
Proof.
  unfold contains. induction d as [|[k' v'] d IH]; simpl.
  - split; [discriminate | intros []].
  - destruct (String.eqb_spec k' k) as [-> | Hk].
    + split; auto.
    + rewrite IH. split; auto. intros [? | ?]; [contradiction | assumption].
Qed.

Lemma NoDup_keys_set {V : Type} (d : dict V) (k : string) (v : V) :
  NoDup (keys d) -> NoDup (keys (set d k v)).
Proof.
  intros Hd. rewrite keys_set. destruct (contains d k) eqn:E; [exact Hd|].
  apply NoDup_app; auto.
  - constructor; [intros [] | constructor].
  - intros a Ha [<- | []]. apply contains_keys in Ha. congruence.
Qed.

(** ** The aggregation loop *)

Lemma aggregate_step_Detection (sc : dict number) (l : string) (c : float) :
  exists sc',
    aggregate_step sc (Detection l c) = Ok sc' /\
    get sc' l = Some (max (confidence_of sc l) (Float c)) /\
    (forall l', l <> l' -> get sc' l' = get sc l') /\
    (NoDup (keys sc) -> NoDup (keys sc')).
Proof.
  unfold aggregate_step, confidence_of, get_default, getitem, contains. simpl.
  destruct (get sc l) as [v|] eqn:E; simpl.
  - rewrite E. simpl. eexists. split; [reflexivity|].
    split; [apply get_set_same|].
    split; [intros; apply get_set_other; assumption | apply NoDup_keys_set].
  - rewrite get_set_same. simpl. eexists. split; [reflexivity|].
    split; [apply get_set_same|]. split.
    + intros l' Hl'. rewrite !get_set_other by assumption. reflexivity.
    + intros Hd. apply NoDup_keys_set, NoDup_keys_set, Hd.
Qed.

Lemma aggregate_step_well_formed (sc sc' : dict number) (d : detection) :
  aggregate_step sc d = Ok sc' -> well_formed d.
Proof.
  unfold aggregate_step, getitem_class, getitem_score, well_formed.
  destruct d as [[l|] [c|]]; simpl; try discriminate.
  intros _. exists l, c. reflexivity.
Qed.

Lemma aggregate_from_well_formed (ds : list detection) :
  forall sc sc', aggregate_from sc ds = Ok sc' -> Forall well_formed ds.
Proof.
  induction ds as [|d ds IH]; intros sc sc' H; [constructor|].
  simpl in H. destruct (aggregate_step sc d) as [sc1|e] eqn:E; [|discriminate].
  constructor; [exact (aggregate_step_well_formed _ _ _ E) | exact (IH _ _ H)].
Qed.

Lemma aggregate_from_get (ds : list detection) :
  Forall well_formed ds ->
  forall sc, exists sc',
    aggregate_from sc ds = Ok sc' /\
    (forall l, get sc' l =
               match confidences l ds with
               | [] => get sc l
               | cs => Some (running_max cs (confidence_of sc l))
               end) /\
    (NoDup (keys sc) -> NoDup (keys sc')).
Proof.
  induction 1 as [|d ds (l0 & c0 & ->) _ IH]; intros sc.
  - exists sc. simpl. auto.
  - destruct (aggregate_step_Detection sc l0 c0) as (sc1 & E1 & Hsame & Hother & Hd1).
    destruct (IH sc1) as (sc' & E' & Hget & Hd').
    exists sc'. split; [simpl in *; rewrite E1; exact E'|].
    split; [|auto].
    intros l. rewrite Hget. simpl.
    destruct (String.eqb_spec l0 l) as [<- | Hne].
    + destruct (confidences l0 ds) as [|c cs] eqn:Ecs.
      * rewrite Hsame. reflexivity.
      * unfold confidence_of at 1, get_default. rewrite Hsame. reflexivity.
    + unfold confidence_of, get_default. rewrite (Hother _ Hne). reflexivity.
Qed.

Lemma confidences_Permutation (l : string) (ds ds' : list detection) :
  Permutation ds ds' -> Permutation (confidences l ds) (confidences l ds').
Proof.
  induction 1 as [|d ds ds' _ IH|d d' ds|? ? ? _ IH1 _ IH2]; simpl.
  - constructor.
  - destruct (class d), (score d); auto. destruct (String.eqb _ _); auto.
  - destruct (class d), (score d), (class d'), (score d');
      try reflexivity;
      repeat match goal with |- context [String.eqb ?a ?b] =>
               destruct (String.eqb a b) end;
      try reflexivity; apply perm_swap.
  - exact (Permutation_trans IH1 IH2).
Qed.

Lemma confidences_In (l : string) (c : float) (ds : list detection) :
  In c (confidences l ds) -> In (Detection l c) ds.
Proof.
  induction ds as [|[[l'|] [c'|]] ds IH]; simpl; auto.
  destruct (String.eqb_spec l' l) as [-> | Hne]; simpl; auto.
  intros [<- | H]; auto.
Qed.

Lemma in_range_well_formed (d : detection) : in_range d -> well_formed d.
Proof. intros (l & c & -> & _). exists l, c. reflexivity. Qed.

Lemma aggregate_get (ds : list detection) :
  Forall well_formed ds ->
  exists sc,
    aggregate ds = Ok sc /\
    (forall l, get sc l = match confidences l ds with
                          | [] => None
                          | cs => Some (running_max cs (Int 0))
                          end) /\
    NoDup (keys sc).
Proof.
  intros Hwf. destruct (aggregate_from_get ds Hwf empty) as (sc & E & Hget & Hd).
  exists sc. split; [exact E|]. split; [exact Hget|].
  apply Hd. constructor.
Qed.

(** C4.  The aggregator returns a map on every sequence of detections
    carrying both keys; the map holds, at each label, the running
    [max(scores.get(label, 0), confidence)] over the detections of that
    label and has no entry for a label without detection; its lookups
    are the same for every permutation of the sequence; and when the
    confidences lie in [0, 1], as the data model has them, the value at a
    label equals the maximum confidence of the detections carrying it. *)
Theorem aggregate_maximum_any_order (ds ds' : list detection) :
  Forall well_formed ds -> Permutation ds ds' ->
  exists sc sc',
    aggregate ds = Ok sc /\ aggregate ds' = Ok sc' /\
    (forall label, get sc' label = get sc label) /\
    (forall label, get sc label = match confidences label ds with
                                  | [] => None
                                  | cs => Some (running_max cs (Int 0))
                                  end) /\
    (Forall in_range ds ->
     forall label, match confidences label ds with
                   | [] => get sc label = None
                   | cs => exists v, get sc label = Some v /\ is_maximum v cs
                   end).
Proof.
  intros Hwf HP.
  assert (Hwf' : Forall well_formed ds').
  { apply Forall_forall. intros d Hd. rewrite Forall_forall in Hwf.
    apply Hwf. exact (Permutation_in _ (Permutation_sym HP) Hd). }
  destruct (aggregate_get ds Hwf) as (sc & E & Hget & _).
  destruct (aggregate_get ds' Hwf') as (sc' & E' & Hget' & _).
  exists sc, sc'. repeat split; auto.
  - intros label. rewrite Hget, Hget'.
    pose proof (confidences_Permutation label _ _ HP) as HPc.
    destruct (confidences label ds) as [|c cs] eqn:Ec.
    + apply Permutation_nil in HPc. rewrite HPc. reflexivity.
    + destruct (confidences label ds') as [|c' cs'] eqn:Ec'.
      * apply Permutation_sym, Permutation_nil in HPc. discriminate.
      * f_equal. symmetry. apply running_max_Permutation. exact HPc.
  - intros Hr label. specialize (Hget label).
    destruct (confidences label ds) as [|c cs] eqn:Ec; [exact Hget|].
    eexists. split; [exact Hget|].
    apply running_max_is_maximum; [discriminate|].
    intros c0 Hc0. rewrite <- Ec in Hc0. apply confidences_In in Hc0.
    rewrite Forall_forall in Hr. destruct (Hr _ Hc0) as (l1 & c1 & Heq & Hu).
    inversion Heq. subst. exact Hu.
Qed.

Lemma aggregate_maximum_any_order_witness :
  Forall well_formed sample_detections /\
  Permutation sample_detections sample_permuted /\
  Forall in_range sample_detections /\
  exists sc sc',
    aggregate sample_detections = Ok sc /\
    aggregate sample_permuted = Ok sc' /\
    (forall label, get sc' label = get sc label) /\
    (exists v, get sc "FACE_F" = Some v /\
               is_maximum v [literal_0_25; literal_0_95]).
Proof.
  assert (Hr : Forall in_range sample_detections).
  { repeat constructor; eexists; eexists; split; reflexivity. }
  assert (Hwf : Forall well_formed sample_detections).
  { repeat constructor; eexists; eexists; reflexivity. }
  assert (HP : Permutation sample_detections sample_permuted).
  { unfold sample_detections, sample_permuted.
    eapply perm_trans; [apply perm_skip, perm_swap | apply perm_swap]. }
  split; [exact Hwf|]. split; [exact HP|]. split; [exact Hr|].
  destruct (aggregate_maximum_any_order _ _ Hwf HP)
    as (sc & sc' & E & E' & Hsame & _ & Hmax).
  exists sc, sc'. repeat split; auto.
  exact (Hmax Hr "FACE_F").
Defined.

(** ** Detector initialisation *)

Section Script.

Context `{Collaborators}.

Lemma init_detector_missing (p : process) (err : string) :
  deps p = ImportFailed err ->
  init_detector p
  = (Raise (Exc (ImportError ("Required dependencies not available: " ++ err))), p).
Proof. intros E. unfold init_detector, bind, read_deps. rewrite E. reflexivity. Qed.

Lemma init_detector_ready (p : process) (h : NudeDetector) :
  deps p = Imported -> detector p = Some h -> init_detector p = (Ok tt, p).
Proof.
  intros E1 E2. unfold init_detector, bind, read_deps, read_detector.
  rewrite E1, E2. reflexivity.
Qed.

Lemma init_detector_builds (p : process) (d : NudeDetector) :
  deps p = Imported -> detector p = None ->
  NudeDetector_new (constructed p) = Ok d ->
  init_detector p = (Ok tt, initialised p d).
Proof.
  intros E1 E2 E3.
  unfold init_detector, bind, read_deps, read_detector, construct.
  rewrite E1, E2, E3. reflexivity.
Qed.

Lemma init_detector_fails (p : process) (e : exception) :
  deps p = Imported -> detector p = None ->
  NudeDetector_new (constructed p) = Raise e ->
  init_detector p = (Raise (Exc e), attempted p).
Proof.
  intros E1 E2 E3.
  unfold init_detector, bind, read_deps, read_detector, construct.
  rewrite E1, E2, E3. reflexivity.
Qed.

(** [init_detector] either returns with the handle set, or raises an
    [Exception]. *)
Lemma init_detector_outcome (p : process) :
  (exists p1 h, init_detector p = (Ok tt, p1) /\ detector p1 = Some h) \/
  (exists e p1, init_detector p = (Raise (Exc e), p1) /\ detector p1 = detector p).
Proof.
  destruct (deps p) as [|err] eqn:E1.
  - destruct (detector p) as [h|] eqn:E2.
    + left. exists p, h. split; [apply (init_detector_ready _ h)|]; assumption.
    + destruct (NudeDetector_new (constructed p)) as [d|e] eqn:E3.
      * left. exists (initialised p d), d.
        split; [apply init_detector_builds; assumption | reflexivity].
      * right. exists e, (attempted p).
        split; [apply init_detector_fails; assumption | exact E2].
  - right. eexists. exists p. split; [apply init_detector_missing; eassumption | reflexivity].
Qed.

(** ** The body of [check_image_content] *)

Lemma bind_Ok {A B : Type} (m : M A) (k : A -> M B) (p p' : process) (a : A) :
  m p = (Ok a, p') -> bind m k p = k a p'.
Proof. intros E. unfold bind. rewrite E. reflexivity. Qed.

Lemma bind_Raise {A B : Type} (m : M A) (k : A -> M B) (p p' : process)
  (e : raised) :
  m p = (Raise e, p') -> bind m k p = (Raise e, p').
Proof. intros E. unfold bind. rewrite E. reflexivity. Qed.

Lemma bind_call {A B : Type} (r : result exception A) (k : A -> M B)
  (p : process) :
  bind (call r) k p
  = match r with Ok a => k a p | Raise e => (Raise (Exc e), p) end.
Proof. unfold bind, call. destruct r; reflexivity. Qed.

Lemma bind_ret {A B : Type} (a : A) (k : A -> M B) (p : process) :
  bind (ret a) k p = k a p.
Proof. reflexivity. Qed.

Lemma call_run {A : Type} (r : result exception A) (p : process) :
  call r p = (match r with Ok a => Ok a | Raise e => Raise (Exc e) end, p).
Proof. unfold call. destruct r; reflexivity. Qed.

Lemma detector_detect_run (h : NudeDetector) (a : ndarray) (p : process) :
  detector p = Some h -> detector_detect a p = call (detect h a) p.
Proof.
  intros E. unfold detector_detect.
  rewrite (bind_Ok _ _ p p (Some h)); [reflexivity|].
  unfold read_detector. rewrite E. reflexivity.
Qed.

Lemma check_image_content_initialised (x : string) (p p1 : process)
  (h : NudeDetector) :
  init_detector p = (Ok tt, p1) -> detector p1 = Some h ->
  check_image_content x p = (Ok (caught (classify h x)), p1).
Proof.
  intros E1 E2.
  unfold check_image_content, try_except, classify, detections_of.
  rewrite (bind_Ok _ _ _ _ _ E1), bind_call.
  destruct (b64decode x) as [b|e]; [|reflexivity]. cbn [bind_result].
  rewrite bind_call.
  destruct (Image_open b) as [i|e]; [|reflexivity]. cbn [bind_result].
  assert (Hrest : forall i0 : Image,
    bind (call (np_array i0))
      (fun image_array =>
         bind (detector_detect image_array)
           (fun detections =>
              bind (call (aggregate detections))
                (fun scores => call (evaluate scores)))) p1
    = (match (let? image_array := np_array i0 in
              let? scores := (let? ds := detect h image_array in Ok ds) in
              let? scores := aggregate scores in
              evaluate scores) with
       | Ok v => Ok v
       | Raise e => Raise (Exc e)
       end, p1)).
  { intros i0. rewrite bind_call.
    destruct (np_array i0) as [a|e]; [|reflexivity]. cbn [bind_result].
    unfold bind at 1. rewrite (detector_detect_run h a p1 E2), call_run.
    destruct (detect h a) as [ds|e]; [|reflexivity]. cbn [bind_result].
    rewrite bind_call.
    destruct (aggregate ds) as [sc|e]; [|reflexivity]. cbn [bind_result].
    apply call_run. }
  destruct (negb (String.eqb (mode i) "RGB")).
  - rewrite bind_call.
    destruct (convert i "RGB") as [i'|e]; [|reflexivity]. cbn [bind_result].
    rewrite Hrest.
    destruct (np_array i') as [a|e]; [|reflexivity]. cbn [bind_result].
    destruct (detect h a) as [ds|e]; [|reflexivity]. cbn [bind_result].
    destruct (aggregate ds) as [sc|e]; [|reflexivity]. cbn [bind_result].
    destruct (evaluate sc) as [v|e]; reflexivity.
  - rewrite bind_ret, Hrest. cbn [bind_result].
    destruct (np_array i) as [a|e]; [|reflexivity]. cbn [bind_result].
    destruct (detect h a) as [ds|e]; [|reflexivity]. cbn [bind_result].
    destruct (aggregate ds) as [sc|e]; [|reflexivity]. cbn [bind_result].
    destruct (evaluate sc) as [v|e]; reflexivity.
Qed.

Lemma check_image_content_uninitialised (x : string) (p p1 : process)
  (e : exception) :
  init_detector p = (Raise (Exc e), p1) ->
  check_image_content x p = (Ok (fail_closed e), p1).
Proof.
  intros E1. unfold check_image_content, try_except, bind.
  rewrite E1. reflexivity.
Qed.

(** [check_image_content] always returns. *)
Lemma check_image_content_returns (x : string) (p : process) :
  exists v p1, check_image_content x p = (Ok v, p1).
Proof.
  destruct (init_detector_outcome p) as [(p1 & h & E1 & E2) | (e & p1 & E1 & _)].
  - eexists. exists p1. exact (check_image_content_initialised _ _ _ _ E1 E2).
  - eexists. exists p1. exact (check_image_content_uninitialised _ _ _ _ E1).
Qed.

(** ** The threshold policy *)

Lemma confidence_of_above (sc : dict number) (l : string) :
  gt (confidence_of sc l) (Float explicit_threshold) = true ->
  exists c, get sc l = Some c /\ confidence_of sc l = c.
Proof.
  unfold confidence_of, get_default. destruct (get sc l) as [c|].
  - intros _. exists c. split; reflexivity.
  - vm_compute. discriminate.
Qed.

Lemma high_risk_loop_first (sc : dict number) (labels : list string)
  (label : string) :
  first_offender sc labels label ->
  exists c, get sc label = Some c /\
            high_risk_loop sc labels = Ok (Some (rejected sc label c)).
Proof.
  intros (before & after & -> & Hbefore & Hlabel).
  destruct (confidence_of_above _ _ Hlabel) as (c & Hc & _).
  exists c. split; [exact Hc|].
  induction before as [|l before IH]; simpl.
  - unfold confidence_of in Hlabel. rewrite Hlabel.
    unfold getitem. rewrite Hc. reflexivity.
  - pose proof (Hbefore l (or_introl Logic.eq_refl)) as Hl.
    unfold confidence_of in Hl. rewrite Hl.
    apply IH. intros l' Hl'. apply Hbefore. right. exact Hl'.
Qed.

Lemma high_risk_loop_none (sc : dict number) (labels : list string) :
  (forall l, In l labels ->
     gt (confidence_of sc l) (Float explicit_threshold) = false) ->
  high_risk_loop sc labels = Ok None.
Proof.
  induction labels as [|l labels IH]; intros Hall; simpl; [reflexivity|].
  pose proof (Hall l (or_introl Logic.eq_refl)) as Hl.
  unfold confidence_of in Hl. rewrite Hl.
  apply IH. intros l' Hl'. apply Hall. right. exact Hl'.
Qed.

Lemma first_offender_exists (sc : dict number) (labels : list string) :
  (exists l, In l labels /\
             gt (confidence_of sc l) (Float explicit_threshold) = true) ->
  exists label, first_offender sc labels label.
Proof.
  induction labels as [|l0 labels IH]; intros (l & Hin & Hl); [destruct Hin|].
  destruct (gt (confidence_of sc l0) (Float explicit_threshold)) eqn:E0.
  - exists l0, [], labels. repeat split; auto. intros ? [].
  - destruct IH as (label & before & after & -> & Hb & Hlabel).
    + destruct Hin as [<- | Hin]; [congruence|]. exists l. split; assumption.
    + exists label, (l0 :: before), after. repeat split; auto.
      intros l' [<- | Hl']; auto.
Qed.

Lemma le_not_gt (a b : number) : le a b = true -> gt a b = false.
Proof. unfold le, gt. destruct (compare a b) as [[]|]; congruence. Qed.

Lemma evaluate_rejects (sc : dict number) (label : string) :
  first_offender sc high_risk_labels label ->
  exists c, get sc label = Some c /\ evaluate sc = Ok (rejected sc label c).
Proof.
  intros Hf. destruct (high_risk_loop_first _ _ _ Hf) as (c & Hc & E).
  exists c. split; [exact Hc|]. unfold evaluate. rewrite E. reflexivity.
Qed.

Lemma evaluate_accepts (sc : dict number) :
  (forall l, In l high_risk_labels ->
     gt (confidence_of sc l) (Float explicit_threshold) = false) ->
  evaluate sc = Ok (accepted sc).
Proof.
  intros Hall. unfold evaluate. rewrite (high_risk_loop_none _ _ Hall).
  reflexivity.
Qed.

(** The policy always returns: one of the two verdicts. *)
Lemma evaluate_returns (sc : dict number) :
  (exists label c, first_offender sc high_risk_labels label /\
                   get sc label = Some c /\
                   evaluate sc = Ok (rejected sc label c)) \/
  ((forall l, In l high_risk_labels ->
      gt (confidence_of sc l) (Float explicit_threshold) = false) /\
   evaluate sc = Ok (accepted sc)).
Proof.
  assert (Hdec : forall labels,
    (exists l, In l labels /\
               gt (confidence_of sc l) (Float explicit_threshold) = true) \/
    (forall l, In l labels ->
               gt (confidence_of sc l) (Float explicit_threshold) = false)).
  { induction labels as [|l0 labels [(l & Hin & Hl) | Hnone]].
    - right. intros ? [].
    - left. exists l. split; [right|]; assumption.
    - destruct (gt (confidence_of sc l0) (Float explicit_threshold)) eqn:E0.
      + left. exists l0. split; [left; reflexivity | exact E0].
      + right. intros l [<- | Hl]; auto. }
  destruct (Hdec high_risk_labels) as [Hsome | Hnone].
  - left. destruct (first_offender_exists _ _ Hsome) as (label & Hf).
    destruct (evaluate_rejects _ _ Hf) as (c & Hc & E).
    exists label, c. auto.
  - right. split; [exact Hnone | exact (evaluate_accepts _ Hnone)].
Qed.

Lemma classify_evaluate (h : NudeDetector) (x : string)
  (ds : list detection) (sc : dict number) :
  detections_of h x = Ok ds -> aggregate ds = Ok sc ->
  classify h x = evaluate sc.
Proof. intros E1 E2. unfold classify. rewrite E1. simpl. rewrite E2. reflexivity. Qed.

(** C1.  On every score map in which a high-risk label has a confidence
    strictly above 0.2, the policy returns [appropriate=False], a
    message naming the first such label of [high_risk_labels] with its
    confidence formatted to two decimals, and the whole score map; and
    [check_image_content] returns that verdict whenever the aggregated
    scores of its detections are that map. *)
Theorem high_risk_is_rejected (sc : dict number) :
  (exists l, In l high_risk_labels /\
             gt (confidence_of sc l) (Float explicit_threshold) = true) ->
  exists label c,
    first_offender sc high_risk_labels label /\
    get sc label = Some c /\
    let v := {| appropriate := false;
                scores := sc;
                message := "Inappropriate content detected: " ++ label
                           ++ " (confidence: " ++ PyStr.format_2f c ++ ")" |} in
    evaluate sc = Ok v /\
    forall (x : string) (p p1 : process) (h : NudeDetector)
           (ds : list detection),
      init_detector p = (Ok tt, p1) -> detector p1 = Some h ->
      detections_of h x = Ok ds -> aggregate ds = Ok sc ->
      check_image_content x p = (Ok v, p1).
Proof.
  intros Hsome.
  destruct (first_offender_exists _ _ Hsome) as (label & Hf).
  destruct (evaluate_rejects _ _ Hf) as (c & Hc & E).
  exists label, c. split; [exact Hf|]. split; [exact Hc|].
  split; [exact E|].
  intros x p p1 h ds E1 E2 E3 E4.
  rewrite (check_image_content_initialised _ _ _ _ E1 E2).
  rewrite (classify_evaluate _ _ _ _ E3 E4), E. reflexivity.
Qed.

(** C3.  On every score map in which each high-risk label has a
    confidence of at most 0.2, the policy returns [appropriate=True]
    whatever the other labels hold, and so does [check_image_content]
    when the aggregated scores are that map; in particular the single
    detection [EXPOSED_ARMPITS] at 0.95 is accepted. *)
Theorem low_risk_is_accepted :
  (forall sc : dict number,
     (forall l, In l high_risk_labels ->
        le (confidence_of sc l) (Float explicit_threshold) = true) ->
     let v := {| appropriate := true;
                 scores := sc;
                 message := "Content appropriate for teen users" |} in
     evaluate sc = Ok v /\
     forall (x : string) (p p1 : process) (h : NudeDetector)
            (ds : list detection),
       init_detector p = (Ok tt, p1) -> detector p1 = Some h ->
       detections_of h x = Ok ds -> aggregate ds = Ok sc ->
       check_image_content x p = (Ok v, p1)) /\
  (aggregate armpits = Ok armpits_scores /\
   forall (x : string) (p p1 : process) (h : NudeDetector),
     init_detector p = (Ok tt, p1) -> detector p1 = Some h ->
     detections_of h x = Ok armpits ->
     check_image_content x p
     = (Ok {| appropriate := true;
              scores := armpits_scores;
              message := "Content appropriate for teen users" |}, p1)).
Proof.
  assert (Hgen : forall sc : dict number,
     (forall l, In l high_risk_labels ->
        le (confidence_of sc l) (Float explicit_threshold) = true) ->
     evaluate sc = Ok (accepted sc) /\
     forall (x : string) (p p1 : process) (h : NudeDetector)
            (ds : list detection),
       init_detector p = (Ok tt, p1) -> detector p1 = Some h ->
       detections_of h x = Ok ds -> aggregate ds = Ok sc ->
       check_image_content x p = (Ok (accepted sc), p1)).
  { intros sc Hall.
    assert (E : evaluate sc = Ok (accepted sc)).
    { apply evaluate_accepts. intros l Hl. apply le_not_gt, Hall, Hl. }
    split; [exact E|].
    intros x p p1 h ds E1 E2 E3 E4.
    rewrite (check_image_content_initialised _ _ _ _ E1 E2).
    rewrite (classify_evaluate _ _ _ _ E3 E4), E. reflexivity. }
  split; [exact Hgen|].
  split; [reflexivity|].
  intros x p p1 h E1 E2 E3.
  apply (proj2 (Hgen armpits_scores
                  ltac:(intros l Hl; simpl in Hl;
                        repeat (destruct Hl as [<- | Hl]; [reflexivity|]);
                        destruct Hl)) x p p1 h armpits E1 E2 E3).
  reflexivity.
Qed.

(** C8.  When initialisation and decoding succeed and the detector
    returns no detection, [check_image_content] returns
    [appropriate=True], an empty score map and the acceptance message. *)
Theorem no_detection_is_accepted (x : string) (p p1 : process)
  (h : NudeDetector) :
  init_detector p = (Ok tt, p1) -> detector p1 = Some h ->
  detections_of h x = Ok [] ->
  check_image_content x p
  = (Ok {| appropriate := true;
           scores := empty;
           message := "Content appropriate for teen users" |}, p1).
Proof.
  intros E1 E2 E3.
  rewrite (check_image_content_initialised _ _ _ _ E1 E2).
  unfold classify. rewrite E3. reflexivity.
Qed.

End Script.

(** ** The documented examples *)

Section Examples.

Context `{Collaborators}.

(** C6.  The detections [EXPOSED_BREAST_F] at 0.25 and [FACE_F] at 0.9
    aggregate to the scores [EXPOSED_BREAST_F: 0.25, FACE_F: 0.9]; the
    policy answers [appropriate=False] with a message mentioning
    [EXPOSED_BREAST_F (confidence: 0.25)]; and that is the verdict of
    [check_image_content] when the detector returns these detections. *)
Theorem breast_and_face_example :
  aggregate breast_and_face = Ok breast_and_face_scores /\
  let v := {| appropriate := false;
              scores := breast_and_face_scores;
              message := "Inappropriate content detected: "
                         ++ "EXPOSED_BREAST_F (confidence: 0.25)" |} in
  evaluate breast_and_face_scores = Ok v /\
  forall (x : string) (p p1 : process) (h : NudeDetector),
    init_detector p = (Ok tt, p1) -> detector p1 = Some h ->
    detections_of h x = Ok breast_and_face ->
    check_image_content x p = (Ok v, p1).
Proof.
  split; [reflexivity|]. split; [vm_compute; reflexivity|].
  intros x p p1 h E1 E2 E3.
  rewrite (check_image_content_initialised _ _ _ _ E1 E2).
  rewrite (classify_evaluate _ _ breast_and_face breast_and_face_scores E3);
    [|reflexivity].
  vm_compute. reflexivity.
Qed.

End Examples.

(** ** Fail-closed error handling *)

Section FailClosed.

Context `{Collaborators}.

Lemma detections_of_pixels (h : NudeDetector) (x : string) :
  detections_of h x = (let? a := pixels x in detect h a).
Proof.
  unfold detections_of, pixels, parse_image, rgb.
  destruct (b64decode x) as [b|e]; [|reflexivity]. cbn [bind_result].
  destruct (Image_open b) as [i|e]; [|reflexivity]. cbn [bind_result].
  destruct (negb (String.eqb (mode i) "RGB")); [|reflexivity].
  destruct (convert i "RGB") as [i'|e]; reflexivity.
Qed.

Lemma classify_pixels_raise (h : NudeDetector) (x : string) (e : exception) :
  pixels x = Raise e -> classify h x = Raise e.
Proof.
  intros E. unfold classify. rewrite detections_of_pixels, E. reflexivity.
Qed.

Lemma raises_caught (x : string) (p : process) (e : exception) :
  raises x p e ->
  exists p1, check_image_content x p = (Ok (fail_closed e), p1).
Proof.
  intros [err E | e0 E1 E2 E3
          | p1 h e0 [R1 R2] E | p1 h b e0 [R1 R2] Eb E
          | p1 h a e0 [R1 R2] Ea E | p1 h ds e0 [R1 R2] Eds E].
  - exists p. apply check_image_content_uninitialised.
    apply init_detector_missing. exact E.
  - exists (attempted p). apply check_image_content_uninitialised.
    apply init_detector_fails; assumption.
  - exists p1. rewrite (check_image_content_initialised _ _ _ _ R1 R2).
    rewrite (classify_pixels_raise h x e0); [reflexivity|].
    unfold pixels. rewrite E. reflexivity.
  - exists p1. rewrite (check_image_content_initialised _ _ _ _ R1 R2).
    rewrite (classify_pixels_raise h x e0); [reflexivity|].
    unfold pixels. rewrite Eb. exact E.
  - exists p1. rewrite (check_image_content_initialised _ _ _ _ R1 R2).
    unfold classify. rewrite detections_of_pixels, Ea. cbn [bind_result].
    rewrite E. reflexivity.
  - exists p1. rewrite (check_image_content_initialised _ _ _ _ R1 R2).
    unfold classify. rewrite Eds. cbn [bind_result]. rewrite E. reflexivity.
Qed.

(** C2.  [check_image_content] never propagates an exception: it always
    returns a verdict.  When a stage raises [e] (dependency check,
    detector construction, base64 decoding, image parsing, detection or
    aggregation) the verdict is [appropriate=False] with empty scores
    and the non-empty message [Content filtering error: ] followed by
    [str(e)]; in particular a payload that [b64decode] rejects yields
    [appropriate=False], empty scores and a non-empty message. *)
Theorem exceptions_fail_closed :
  (forall (x : string) (p : process),
     exists v p1, check_image_content x p = (Ok v, p1)) /\
  (forall (x : string) (p : process) (e : exception),
     raises x p e ->
     exists p1,
       check_image_content x p
       = (Ok {| appropriate := false;
                scores := empty;
                message := "Content filtering error: " ++ str e |}, p1) /\
       "Content filtering error: " ++ str e <> "") /\
  (forall (x : string) (p : process) (e : exception),
     b64decode x = Raise e ->
     exists v p1,
       check_image_content x p = (Ok v, p1) /\
       appropriate v = false /\ scores v = empty /\ message v <> "").
Proof.
  split; [exact check_image_content_returns|]. split.
  - intros x p e Hr. destruct (raises_caught _ _ _ Hr) as (p1 & E).
    exists p1. split; [exact E | discriminate].
  - intros x p e E.
    destruct (init_detector_outcome p) as [(p1 & h & E1 & E2) | (e' & p1 & E1 & _)].
    + destruct (raises_caught x p e (raises_base64 x p p1 h e (conj E1 E2) E))
        as (p2 & E').
      exists (fail_closed e), p2. repeat split; [exact E' | discriminate].
    + exists (fail_closed e'), p1. repeat split;
        [exact (check_image_content_uninitialised _ _ _ _ E1) | discriminate].
Qed.

End FailClosed.

(** ** Lazy initialisation of the detector *)

Section Initialisation.

Context `{Collaborators}.

Lemma init_detector_keeps (p : process) (h : NudeDetector) :
  detector p = Some h -> snd (init_detector p) = p.
Proof.
  intros E. destruct (deps p) as [|err] eqn:Ed.
  - rewrite (init_detector_ready p h Ed E). reflexivity.
  - rewrite (init_detector_missing p err Ed). reflexivity.
Qed.

Lemma check_image_content_state (x : string) (p : process) :
  snd (check_image_content x p) = snd (init_detector p).
Proof.
  destruct (init_detector_outcome p) as [(p1 & h & E1 & E2) | (e & p1 & E1 & _)].
  - rewrite (check_image_content_initialised _ _ _ _ E1 E2), E1. reflexivity.
  - rewrite (check_image_content_uninitialised _ _ _ _ E1), E1. reflexivity.
Qed.

Lemma main_usage (argv : list string) (p : process) :
  List.length argv <> 2%nat ->
  main argv p = (Raise (SystemExit 1), printed p (Json.dumps usage)).
Proof.
  intros Hn. unfold main.
  destruct (Nat.eqb_spec (List.length argv) 2) as [E|_]; [contradiction|].
  reflexivity.
Qed.

Lemma main_classifies (prog arg : string) (p p1 : process) (v : verdict) :
  check_image_content arg p = (Ok v, p1) ->
  main [prog; arg] p = (Ok tt, printed p1 (Json.dumps v)).
Proof.
  intros E. unfold main. simpl. rewrite bind_ret.
  rewrite (bind_Ok _ _ _ _ _ E). reflexivity.
Qed.

(** C7.  A call of [init_detector] that returns leaves a handle, and
    calling it again changes nothing; once there is a handle, every
    call of [init_detector] and of [check_image_content] leaves the
    whole process state as it is (the handle kept, no detector
    constructed) and [main] keeps the handle; the first successful call
    constructs one detector; and when the dependencies are missing
    every call raises [ImportError] and leaves the process state,
    handle included, as it was. *)
Theorem init_detector_once :
  (forall p p1 : process,
     init_detector p = (Ok tt, p1) ->
     exists h, detector p1 = Some h /\ init_detector p1 = (Ok tt, p1)) /\
  (forall (p : process) (h : NudeDetector),
     detector p = Some h ->
     snd (init_detector p) = p /\
     (forall x, snd (check_image_content x p) = p) /\
     (forall argv, detector (snd (main argv p)) = Some h /\
                   constructed (snd (main argv p)) = constructed p)) /\
  (forall (p : process) (d : NudeDetector),
     deps p = Imported -> detector p = None ->
     NudeDetector_new (constructed p) = Ok d ->
     init_detector p = (Ok tt, initialised p d) /\
     detector (initialised p d) = Some d /\
     constructed (initialised p d) = S (constructed p)) /\
  (forall (p : process) (err : string),
     deps p = ImportFailed err ->
     init_detector p
     = (Raise (Exc (ImportError
                      ("Required dependencies not available: " ++ err))), p)).
Proof.
  split; [|split; [|split]].
  - intros p p1 E.
    destruct (init_detector_outcome p) as [(p2 & h & E1 & E2) | (e & p2 & E1 & _)];
      [|congruence].
    assert (p2 = p1) by congruence. subst p2. exists h. split; [exact E2|].
    pose proof (init_detector_keeps p1 h E2) as Hk.
    destruct (deps p1) as [|err] eqn:Ed.
    + exact (init_detector_ready p1 h Ed E2).
    + exfalso. destruct (deps p) as [|err'] eqn:Ed'.
      * destruct (detector p) as [h'|] eqn:Eh.
        { rewrite (init_detector_ready p h' Ed' Eh) in E.
          inversion E. subst. congruence. }
        destruct (NudeDetector_new (constructed p)) as [d|e] eqn:En.
        { rewrite (init_detector_builds p d Ed' Eh En) in E.
          inversion E. subst. simpl in Ed. congruence. }
        { rewrite (init_detector_fails p e Ed' Eh En) in E. discriminate. }
      * rewrite (init_detector_missing p err' Ed') in E. discriminate.
  - intros p h E.
    pose proof (init_detector_keeps p h E) as Hk.
    split; [exact Hk|]. split.
    + intros x. rewrite check_image_content_state. exact Hk.
    + intros argv. unfold main.
      destruct (negb (Nat.eqb (List.length argv) 2)); [split; [exact E | reflexivity]|].
      destruct (nth_error argv 1) as [a|]; [|split; [exact E | reflexivity]].
      rewrite bind_ret.
      destruct (check_image_content_returns a p) as (v & p1 & Ev).
      rewrite (bind_Ok _ _ _ _ _ Ev). simpl.
      assert (p1 = p).
      { rewrite <- (check_image_content_state a p) in Hk.
        rewrite Ev in Hk. exact Hk. }
      subst p1. split; [exact E | reflexivity].
  - intros p d E1 E2 E3.
    split; [exact (init_detector_builds p d E1 E2 E3)|]. split; reflexivity.
  - intros p err E. exact (init_detector_missing p err E).
Qed.

End Initialisation.

(** ** One line of JSON *)

Lemma mem_append (c : ascii) (a b : string) :
  PyStr.mem c (a ++ b) = PyStr.mem c a || PyStr.mem c b.
Proof.
  induction a as [|c' a IH]; simpl; [reflexivity|].
  rewrite IH, orb_assoc. reflexivity.
Qed.

Lemma no_newline_append (a b : string) :
  no_newline a -> no_newline b -> no_newline (a ++ b).
Proof.
  unfold no_newline. intros Ha Hb. rewrite mem_append, Ha, Hb. reflexivity.
Qed.

Lemma no_newline_flat_map (f : ascii -> string) (s : string) :
  (forall c, no_newline (f c)) -> no_newline (PyStr.flat_map f s).
Proof.
  intros Hf. induction s as [|c s IH]; simpl; [reflexivity|].
  apply no_newline_append; [apply Hf | exact IH].
Qed.

Lemma escape_char_no_newline (c : ascii) : no_newline (Json.escape_char c).
Proof. destruct c as [[] [] [] [] [] [] [] []]; vm_compute; reflexivity. Qed.

Lemma dumps_str_no_newline (s : string) : no_newline (Json.dumps_str s).
Proof.
  unfold Json.dumps_str.
  change (String PyStr.dquote ?t) with (PyStr.char PyStr.dquote ++ t).
  apply no_newline_append; [reflexivity|].
  apply no_newline_append; [|reflexivity].
  apply no_newline_flat_map, escape_char_no_newline.
Qed.

Lemma string_of_uint_no_newline (u : Decimal.uint) :
  no_newline (NilEmpty.string_of_uint u).
Proof.
  unfold no_newline, PyStr.newline.
  induction u; simpl; auto.
Qed.

Lemma digits_no_newline (z : Z) : no_newline (PyStr.digits z).
Proof.
  unfold PyStr.digits, NilZero.string_of_int, NilZero.string_of_uint.
  destruct (Z.to_int z) as [u|u]; destruct u;
    try reflexivity; apply string_of_uint_no_newline.
Qed.

Lemma sign_no_newline (s : bool) : no_newline (PyStr.sign s).
Proof. destruct s; reflexivity. Qed.

Lemma two_digits_no_newline (n : Z) : no_newline (PyStr.two_digits n).
Proof.
  unfold PyStr.two_digits.
  apply no_newline_append; [|apply digits_no_newline].
  destruct (n <? 10); reflexivity.
Qed.

Lemma format_2f_float_no_newline (f : float) :
  no_newline (PyStr.format_2f_float f).
Proof.
  destruct f as [s|s| |s m e]; unfold PyStr.format_2f_float.
  - apply no_newline_append; [apply sign_no_newline | reflexivity].
  - apply no_newline_append; [apply sign_no_newline | reflexivity].
  - reflexivity.
  - apply no_newline_append; [apply sign_no_newline|].
    apply no_newline_append; [apply digits_no_newline|].
    apply no_newline_append; [reflexivity | apply two_digits_no_newline].
Qed.

Lemma concat_no_newline (sep : string) (l : list string) :
  no_newline sep -> Forall no_newline l -> no_newline (String.concat sep l).
Proof.
  intros Hsep Hl. induction Hl as [|a l Ha Hl IH]; simpl; [reflexivity|].
  destruct l as [|b l]; [exact Ha|].
  apply no_newline_append; [exact Ha|].
  apply no_newline_append; [exact Hsep | exact IH].
Qed.

Lemma dumps_object_no_newline (members : list (string * string)) :
  Forall (fun kv => no_newline (snd kv)) members ->
  no_newline (Json.dumps_object members).
Proof.
  intros Hm. unfold Json.dumps_object.
  apply no_newline_append; [reflexivity|].
  apply no_newline_append; [|reflexivity].
  apply concat_no_newline; [reflexivity|].
  induction Hm as [|[k v] l Hv Hl IH]; cbn [map fst snd]; constructor; auto.
  apply no_newline_append; [apply dumps_str_no_newline|].
  apply no_newline_append; [reflexivity | exact Hv].
Qed.

Section OneLine.

Context `{Collaborators}.

Hypothesis float_repr_no_newline : forall f, no_newline (float_repr f).

Lemma dumps_number_no_newline (x : number) : no_newline (Json.dumps_number x).
Proof.
  destruct x as [z|f]; simpl; [apply digits_no_newline|].
  destruct f as [s|s| |s m e]; simpl; try apply float_repr_no_newline;
    try reflexivity.
  apply no_newline_append; [apply sign_no_newline | reflexivity].
Qed.

Lemma dumps_no_newline (v : verdict) : no_newline (Json.dumps v).
Proof.
  unfold Json.dumps, Json.members. apply dumps_object_no_newline.
  repeat constructor; simpl.
  - destruct (appropriate v); reflexivity.
  - unfold Json.dumps_scores. apply dumps_object_no_newline.
    induction (scores v) as [|[k x] d IH]; simpl; constructor; auto.
    apply dumps_number_no_newline.
  - apply dumps_str_no_newline.
Qed.

End OneLine.

(** ** Shape of the verdicts *)

Section Verdicts.

Context `{Collaborators}.

Lemma fail_closed_well_shaped (e : exception) : well_shaped (fail_closed e).
Proof. split; [discriminate | constructor]. Qed.

Lemma usage_well_shaped : well_shaped usage.
Proof. split; [discriminate | constructor]. Qed.

Lemma evaluate_well_shaped (sc : dict number) (v : verdict) :
  NoDup (keys sc) -> evaluate sc = Ok v -> well_shaped v /\ scores v = sc.
Proof.
  intros Hd E.
  destruct (evaluate_returns sc) as [(label & c & _ & _ & E') | [_ E']];
    rewrite E' in E; inversion E; subst v; repeat split; auto; discriminate.
Qed.

Lemma classify_well_shaped (h : NudeDetector) (x : string) :
  well_shaped (caught (classify h x)).
Proof.
  unfold classify.
  destruct (detections_of h x) as [ds|e]; [|apply fail_closed_well_shaped].
  cbn [bind_result].
  destruct (aggregate ds) as [sc|e] eqn:E; [|apply fail_closed_well_shaped].
  cbn [bind_result].
  destruct (evaluate sc) as [v|e] eqn:Ev; [|apply fail_closed_well_shaped].
  destruct (aggregate_get ds (aggregate_from_well_formed _ _ _ E))
    as (sc' & E' & _ & Hd).
  assert (sc' = sc) by congruence. subst sc'.
  exact (proj1 (evaluate_well_shaped _ _ Hd Ev)).
Qed.

Lemma check_image_content_well_shaped (x : string) (p p1 : process)
  (v : verdict) :
  check_image_content x p = (Ok v, p1) -> well_shaped v.
Proof.
  intros E.
  destruct (init_detector_outcome p) as [(p2 & h & E1 & E2) | (e & p2 & E1 & _)].
  - rewrite (check_image_content_initialised _ _ _ _ E1 E2) in E.
    inversion E. apply classify_well_shaped.
  - rewrite (check_image_content_uninitialised _ _ _ _ E1) in E.
    inversion E. apply fail_closed_well_shaped.
Qed.

(** C9.  Every verdict of the program has the three members
    [appropriate], [scores] and [message], a non-empty message and a
    score map with one entry per label: the verdicts that
    [check_image_content] returns (rejection, acceptance and the
    fail-closed one), the usage verdict, and so every verdict that
    [main] prints. *)
Theorem verdicts_well_shaped :
  (forall (x : string) (p p1 : process) (v : verdict),
     check_image_content x p = (Ok v, p1) -> well_shaped v) /\
  (forall (sc : dict number) (label : string) (c : number),
     NoDup (keys sc) -> well_shaped (rejected sc label c)) /\
  (forall sc : dict number, NoDup (keys sc) -> well_shaped (accepted sc)) /\
  (forall e : exception, well_shaped (fail_closed e)) /\
  well_shaped usage /\
  (forall (argv : list string) (p : process),
     exists v, well_shaped v /\
               snd (main argv p)
               = printed (snd (init_detector_if (Nat.eqb (List.length argv) 2) p))
                         (Json.dumps v)) /\
  (forall v : verdict,
     map fst (Json.members v) = ["appropriate"; "scores"; "message"]).
Proof.
  split; [exact check_image_content_well_shaped|].
  split; [intros sc label c Hd; split; [discriminate | exact Hd]|].
  split; [intros sc Hd; split; [discriminate | exact Hd]|].
  split; [exact fail_closed_well_shaped|].
  split; [exact usage_well_shaped|].
  split; [|reflexivity].
  intros argv p. unfold init_detector_if.
  destruct (Nat.eqb_spec (List.length argv) 2) as [E|E].
  - destruct argv as [|prog [|arg [|? ?]]]; try discriminate.
    destruct (check_image_content_returns arg p) as (v & p1 & Ev).
    exists v. split; [exact (check_image_content_well_shaped _ _ _ _ Ev)|].
    rewrite (main_classifies _ _ _ _ _ Ev).
    rewrite <- (check_image_content_state arg p), Ev. reflexivity.
  - exists usage. split; [exact usage_well_shaped|].
    rewrite (main_usage _ _ E). reflexivity.
Qed.

End Verdicts.

(** ** The command line *)

Section CommandLine.

Context `{Collaborators}.

Hypothesis float_repr_no_newline : forall f, no_newline (float_repr f).

Lemma init_detector_streams (p : process) :
  stdout (snd (init_detector p)) = stdout p /\
  (stderr (snd (init_detector p)) = stderr p \/
   detector p = None /\
   stderr (snd (init_detector p))
   = stderr p ++ "NudeNet detector initialized" ++ PyStr.char PyStr.newline).
Proof.
  destruct (deps p) as [|err] eqn:Ed.
  - destruct (detector p) as [h|] eqn:Eh.
    + rewrite (init_detector_ready p h Ed Eh). auto.
    + destruct (NudeDetector_new (constructed p)) as [d|e] eqn:En.
      * rewrite (init_detector_builds p d Ed Eh En). auto.
      * rewrite (init_detector_fails p e Ed Eh En). auto.
  - rewrite (init_detector_missing p err Ed). auto.
Qed.

(** C5.  With a number of positional arguments other than one, [main]
    prints the usage verdict as one line of JSON on standard output and
    exits with status 1; with exactly one, it prints the verdict of
    [check_image_content] as one line of JSON on standard output and
    returns, so the exit status is 0 whatever the verdict. *)
Theorem main_exit_status :
  (forall (argv : list string) (p : process),
     List.length (tl argv) <> 1%nat ->
     main argv p = (Raise (SystemExit 1), printed p (Json.dumps usage)) /\
     exit_status (fst (main argv p)) = 1 /\
     appropriate usage = false /\
     no_newline (Json.dumps usage)) /\
  (forall (prog arg : string) (p : process),
     exists v p1,
       check_image_content arg p = (Ok v, p1) /\
       main [prog; arg] p = (Ok tt, printed p1 (Json.dumps v)) /\
       exit_status (fst (main [prog; arg] p)) = 0 /\
       no_newline (Json.dumps v)).
Proof.
  split.
  - intros argv p Hn.
    assert (Hn' : List.length argv <> 2%nat).
    { destruct argv as [|? [|? [|? ?]]]; simpl in *; congruence. }
    rewrite (main_usage _ _ Hn'). repeat split.
  - intros prog arg p.
    destruct (check_image_content_returns arg p) as (v & p1 & Ev).
    exists v, p1. rewrite (main_classifies _ _ _ _ _ Ev). repeat split; auto.
    apply (dumps_no_newline float_repr_no_newline).
Qed.

(** C10.  On a run with exactly one argument, standard output grows by
    exactly one line, the JSON of the verdict, and standard error is
    either unchanged or grows by the line [NudeNet detector
    initialized]; [init_detector] never writes to standard output. *)
Theorem one_argument_one_line (prog arg : string) (p : process) :
  exists v p1,
    check_image_content arg p = (Ok v, p1) /\
    stdout (snd (main [prog; arg] p))
    = stdout p ++ Json.dumps v ++ PyStr.char PyStr.newline /\
    no_newline (Json.dumps v) /\
    (stderr (snd (main [prog; arg] p)) = stderr p \/
     stderr (snd (main [prog; arg] p))
     = stderr p ++ "NudeNet detector initialized" ++ PyStr.char PyStr.newline) /\
    stdout (snd (init_detector p)) = stdout p.
Proof.
  destruct (check_image_content_returns arg p) as (v & p1 & Ev).
  exists v, p1. rewrite (main_classifies _ _ _ _ _ Ev).
  pose proof (check_image_content_state arg p) as Hs. rewrite Ev in Hs.
  simpl in Hs. subst p1.
  destruct (init_detector_streams p) as [Hout Herr].
  split; [exact Ev|]. cbn [snd printed stdout stderr].
  split; [rewrite Hout; reflexivity|].
  split; [apply (dumps_no_newline float_repr_no_newline)|].
  split; [|exact Hout].
  destruct Herr as [Herr | [_ Herr]]; [left | right]; exact Herr.
Qed.

End CommandLine.

(** ** Concrete runs *)

Lemma demo_float_repr_no_newline (f : float) : no_newline (demo_float_repr f).
Proof.
  unfold demo_float_repr.
  destruct (SFeqb f literal_0_25); [reflexivity|].
  destruct (SFeqb f literal_0_9); [reflexivity|].
  destruct (SFeqb f literal_0_95); [reflexivity|].
  apply format_2f_float_no_newline.
Qed.

Lemma high_risk_is_rejected_witness :
  (exists l, In l high_risk_labels /\
             gt (confidence_of breast_and_face_scores l)
                (Float explicit_threshold) = true) /\
  @check_image_content demo "bust" demo_start
  = (Ok {| appropriate := false;
           scores := breast_and_face_scores;
           message := "Inappropriate content detected: "
                      ++ "EXPOSED_BREAST_F (confidence: 0.25)" |},
     demo_ready).
Proof.
  assert (Hsome : exists l, In l high_risk_labels /\
                    gt (confidence_of breast_and_face_scores l)
                       (Float explicit_threshold) = true).
  { exists "EXPOSED_BREAST_F". split; [simpl; tauto | reflexivity]. }
  split; [exact Hsome|].
  destruct (@high_risk_is_rejected demo breast_and_face_scores Hsome)
    as (label & c & _ & _ & E & Hrun).
  cbv zeta in E, Hrun.
  rewrite (Hrun "bust" demo_start demo_ready tt breast_and_face
             Logic.eq_refl Logic.eq_refl Logic.eq_refl Logic.eq_refl).
  assert (E' : evaluate breast_and_face_scores
               = Ok {| appropriate := false;
                       scores := breast_and_face_scores;
                       message := "Inappropriate content detected: "
                                  ++ "EXPOSED_BREAST_F (confidence: 0.25)" |})
    by (vm_compute; reflexivity).
  rewrite E in E'.
  exact (f_equal (fun r : result raised verdict => (r, demo_ready))
           (f_equal (fun r => match r with
                              | Ok v => Ok v
                              | Raise e => Raise (Exc e)
                              end) E')).
Defined.

Lemma low_risk_is_accepted_witness :
  (forall l, In l high_risk_labels ->
     le (confidence_of armpits_scores l) (Float explicit_threshold) = true) /\
  @check_image_content demo "arms" demo_start
  = (Ok {| appropriate := true;
           scores := armpits_scores;
           message := "Content appropriate for teen users" |}, demo_ready).
Proof.
  assert (Hall : forall l, In l high_risk_labels ->
     le (confidence_of armpits_scores l) (Float explicit_threshold) = true).
  { intros l Hl. simpl in Hl.
    repeat (destruct Hl as [<- | Hl]; [reflexivity|]). destruct Hl. }
  split; [exact Hall|].
  exact (proj2 (proj1 (@low_risk_is_accepted demo) armpits_scores Hall)
           "arms" demo_start demo_ready tt armpits
           Logic.eq_refl Logic.eq_refl Logic.eq_refl Logic.eq_refl).
Defined.

Lemma no_detection_is_accepted_witness :
  @init_detector demo demo_start = (Ok tt, demo_ready) /\
  @detector demo demo_ready = Some tt /\
  @detections_of demo tt "land" = Ok [] /\
  @check_image_content demo "land" demo_start
  = (Ok {| appropriate := true;
           scores := empty;
           message := "Content appropriate for teen users" |}, demo_ready).
Proof.
  split; [reflexivity|]. split; [reflexivity|]. split; [reflexivity|].
  exact (@no_detection_is_accepted demo "land" demo_start demo_ready tt
           Logic.eq_refl Logic.eq_refl Logic.eq_refl).
Defined.

Lemma breast_and_face_example_witness :
  @init_detector demo demo_start = (Ok tt, demo_ready) /\
  @detections_of demo tt "bust" = Ok breast_and_face /\
  @check_image_content demo "bust" demo_start
  = (Ok {| appropriate := false;
           scores := breast_and_face_scores;
           message := "Inappropriate content detected: "
                      ++ "EXPOSED_BREAST_F (confidence: 0.25)" |},
     demo_ready).
Proof.
  split; [reflexivity|]. split; [reflexivity|].
  exact (proj2 (proj2 (@breast_and_face_example demo))
           "bust" demo_start demo_ready tt
           Logic.eq_refl Logic.eq_refl Logic.eq_refl).
Defined.

Lemma exceptions_fail_closed_witness :
  @raises demo "abc" demo_start (OtherException "Incorrect padding") /\
  exists p1,
    @check_image_content demo "abc" demo_start
    = (Ok {| appropriate := false;
             scores := empty;
             message := "Content filtering error: Incorrect padding" |}, p1).
Proof.
  assert (Hr : @raises demo "abc" demo_start (OtherException "Incorrect padding")).
  { apply (@raises_base64 demo "abc" demo_start demo_ready tt);
      [split; reflexivity | reflexivity]. }
  split; [exact Hr|].
  destruct (proj1 (proj2 (@exceptions_fail_closed demo)) _ _ _ Hr) as (p1 & E & _).
  exists p1. exact E.
Defined.

Lemma init_detector_once_witness :
  @init_detector demo demo_start = (Ok tt, demo_ready) /\
  @detector demo demo_ready = Some tt /\
  @init_detector demo demo_ready = (Ok tt, demo_ready) /\
  (forall x, snd (@check_image_content demo x demo_ready) = demo_ready) /\
  @deps demo (@start demo (ImportFailed "No module named 'nudenet'"))
  = ImportFailed "No module named 'nudenet'" /\
  @init_detector demo (@start demo (ImportFailed "No module named 'nudenet'"))
  = (Raise (Exc (ImportError
                   ("Required dependencies not available: "
                    ++ "No module named 'nudenet'"))),
     @start demo (ImportFailed "No module named 'nudenet'")).
Proof.
  pose proof (@init_detector_once demo) as (Hfirst & Hkeep & Hbuild & Hmissing).
  split; [exact (proj1 (Hbuild demo_start tt Logic.eq_refl Logic.eq_refl
                          Logic.eq_refl))|].
  split; [reflexivity|].
  destruct (Hfirst demo_start demo_ready Logic.eq_refl) as (h & _ & Hagain).
  split; [exact Hagain|].
  split; [exact (proj1 (proj2 (Hkeep demo_ready tt Logic.eq_refl)))|].
  split; [reflexivity|].
  exact (Hmissing (@start demo (ImportFailed "No module named 'nudenet'"))
           "No module named 'nudenet'" Logic.eq_refl).
Defined.

Lemma verdicts_well_shaped_witness :
  @check_image_content demo "bust" demo_start
  = (Ok (rejected breast_and_face_scores "EXPOSED_BREAST_F" (Float literal_0_25)),
     demo_ready) /\
  well_shaped (rejected breast_and_face_scores "EXPOSED_BREAST_F"
                 (Float literal_0_25)).
Proof.
  assert (Ec : @classify demo tt "bust"
               = Ok (rejected breast_and_face_scores "EXPOSED_BREAST_F"
                       (Float literal_0_25)))
    by (vm_compute; reflexivity).
  assert (E : @check_image_content demo "bust" demo_start
              = (Ok (rejected breast_and_face_scores "EXPOSED_BREAST_F"
                       (Float literal_0_25)), demo_ready)).
  { rewrite (@check_image_content_initialised demo "bust" demo_start
               demo_ready tt Logic.eq_refl Logic.eq_refl).
    rewrite Ec. reflexivity. }
  split; [exact E|].
  exact (proj1 (@verdicts_well_shaped demo) _ _ _ _ E).
Defined.

Lemma main_exit_status_witness :
  (forall f, no_newline (@float_repr demo f)) /\
  List.length (tl ["content-filter.py"]) <> 1%nat /\
  exit_status (fst (@main demo ["content-filter.py"] demo_start)) = 1 /\
  exit_status
    (fst (@main demo ["content-filter.py"; "bust"; "arms"] demo_start)) = 1 /\
  exit_status (fst (@main demo ["content-filter.py"; "bust"] demo_start)) = 0 /\
  exit_status (fst (@main demo ["content-filter.py"; "abc"] demo_start)) = 0.
Proof.
  pose proof (@main_exit_status demo demo_float_repr_no_newline) as [Hbad Hgood].
  split; [exact demo_float_repr_no_newline|].
  split; [simpl; lia|].
  split; [exact (proj1 (proj2 (Hbad ["content-filter.py"] demo_start
                                 ltac:(simpl; lia))))|].
  split; [exact (proj1 (proj2 (Hbad ["content-filter.py"; "bust"; "arms"]
                                 demo_start ltac:(simpl; lia))))|].
  split.
  - destruct (Hgood "content-filter.py" "bust" demo_start)
      as (v & p1 & _ & _ & Hexit & _). exact Hexit.
  - destruct (Hgood "content-filter.py" "abc" demo_start)
      as (v & p1 & _ & _ & Hexit & _). exact Hexit.
Defined.

Lemma one_argument_one_line_witness :
  (forall f, no_newline (@float_repr demo f)) /\
  exists v,
    @stdout demo (snd (@main demo ["content-filter.py"; "bust"] demo_start))
    = @Json.dumps demo v ++ PyStr.char PyStr.newline /\
    no_newline (@Json.dumps demo v) /\
    @stderr demo (snd (@main demo ["content-filter.py"; "bust"] demo_start))
    = "NudeNet detector initialized" ++ PyStr.char PyStr.newline.
Proof.
  split; [exact demo_float_repr_no_newline|].
  destruct (@one_argument_one_line demo demo_float_repr_no_newline
              "content-filter.py" "bust" demo_start)
    as (v & p1 & _ & Hout & Hline & _ & _).
  exists v. split; [exact Hout|]. split; [exact Hline|].
  reflexivity.
Defined.

(** The lines the demo prints: the verdict of the first documented
    example, and the usage verdict. *)
Example demo_run_stdout :
  @stdout demo (snd (@main demo ["content-filter.py"; "bust"] demo_start))
  = "{" ++ quoted "appropriate" ++ ": false, "
        ++ quoted "scores" ++ ": {"
        ++ quoted "EXPOSED_BREAST_F" ++ ": 0.25, "
        ++ quoted "FACE_F" ++ ": 0.9}, "
        ++ quoted "message" ++ ": "
        ++ quoted ("Inappropriate content detected: "
                   ++ "EXPOSED_BREAST_F (confidence: 0.25)")
        ++ "}" ++ PyStr.char PyStr.newline.
Proof. vm_compute. reflexivity. Qed.

Example demo_usage_stdout :
  @stdout demo (snd (@main demo ["content-filter.py"] demo_start))
  = "{" ++ quoted "appropriate" ++ ": false, "
        ++ quoted "scores" ++ ": {}, "
        ++ quoted "message" ++ ": "
        ++ quoted "Usage: python content-filter.py <base64_image_data>"
        ++ "}" ++ PyStr.char PyStr.newline.
Proof. vm_compute. reflexivity. Qed.

(** A detection without its [score] key makes the aggregation raise
    [KeyError('score')], which the message shows as Python prints it. *)
Example missing_score_message :
  aggregate [ {| class := Some "FACE_F"; score := None |} ]
  = Raise (KeyError "score") /\
  message (fail_closed (KeyError "score"))
  = "Content filtering error: 'score'".
Proof. split; reflexivity. Qed.

(* ================================================================= *)
(** * Further properties of the script *)

(** ** What the aggregation stores *)

Lemma confidences_In_iff (l : string) (c : float) (ds : list detection) :
  In c (confidences l ds) <-> In (Detection l c) ds.
Proof.
  split; [apply confidences_In|].
  induction ds as [|[[l'|] [c'|]] ds IH]; simpl; auto;
    try (intros [Hd | Hd]; [discriminate | auto]).
  intros [Hd | Hd].
  - inversion Hd. subst. rewrite String.eqb_refl. left. reflexivity.
  - destruct (String.eqb l' l); [right|]; auto.
Qed.

Lemma aggregate_value (ds : list detection) (sc : dict number)
  (l : string) (v : number) :
  aggregate ds = Ok sc -> get sc l = Some v ->
  confidences l ds <> [] /\ greatest_or_zero (confidences l ds) v.
Proof.
  intros E Hv.
  destruct (aggregate_get ds (aggregate_from_well_formed _ _ _ E))
    as (sc' & E' & Hget & _).
  assert (sc' = sc) by congruence. subst sc'.
  rewrite Hget in Hv.
  destruct (confidences l ds) as [|c cs] eqn:Ec; [discriminate|].
  split; [discriminate|]. inversion Hv. apply running_max_spec.
Qed.

Lemma aggregate_absent (ds : list detection) (sc : dict number) (l : string) :
  aggregate ds = Ok sc -> get sc l = None -> confidences l ds = [].
Proof.
  intros E Hv.
  destruct (aggregate_get ds (aggregate_from_well_formed _ _ _ E))
    as (sc' & E' & Hget & _).
  assert (sc' = sc) by congruence. subst sc'.
  rewrite Hget in Hv.
  destruct (confidences l ds); [reflexivity | discriminate].
Qed.

(** X1.  Every value the aggregation stores is the int [0] or a
    positive float that is the confidence of a detection of that label:
    a NaN, a zero or a negative confidence is never stored, and the
    int [0] is stored exactly when no detection of the label has a
    positive confidence. *)
Theorem aggregate_stores_zero_or_positive (ds : list detection)
  (sc : dict number) (l : string) (v : number) :
  aggregate ds = Ok sc -> get sc l = Some v ->
  (v = Int 0 /\
   forall c, In (Detection l c) ds -> positive_float c = false) \/
  (exists c, v = Float c /\ positive_float c = true /\
             In (Detection l c) ds).
Proof.
  intros E Hv.
  destruct (aggregate_value _ _ _ _ E Hv)
    as [_ [[-> Hnone] | (m & -> & Hin & Hpos & _)]].
  - left. split; [reflexivity|].
    intros c Hc. apply Hnone, confidences_In_iff, Hc.
  - right. exists m. repeat split; auto. apply confidences_In_iff, Hin.
Qed.

Lemma aggregate_stores_zero_or_positive_witness :
  aggregate odd_detections
  = Ok [ ("EXPOSED_ANUS", Int 0); ("FACE_F", Float literal_0_9);
         ("EXPOSED_BUTTOCKS", Float literal_0_2) ] /\
  get [ ("EXPOSED_ANUS", Int 0); ("FACE_F", Float literal_0_9);
        ("EXPOSED_BUTTOCKS", Float literal_0_2) ] "EXPOSED_ANUS"
  = Some (Int 0) /\
  forall c, In (Detection "EXPOSED_ANUS" c) odd_detections ->
            positive_float c = false.
Proof.
  split; [reflexivity|]. split; [reflexivity|].
  destruct (aggregate_stores_zero_or_positive odd_detections _
              "EXPOSED_ANUS" (Int 0) Logic.eq_refl Logic.eq_refl)
    as [[_ Hnone] | (c & Hc & _)]; [exact Hnone | discriminate].
Defined.

(** ** When an image is rejected *)

Lemma gt_Float_Float (a b : float) : gt (Float a) (Float b) = SFltb b a.
Proof.
  unfold gt, SFltb. simpl. rewrite (SFcompare_swap b a).
  destruct (SFcompare b a) as [[]|]; reflexivity.
Qed.

Lemma explicit_threshold_positive : positive_float explicit_threshold = true.
Proof. reflexivity. Qed.

Lemma gt_Int_0_threshold : gt (Int 0) (Float explicit_threshold) = false.
Proof. reflexivity. Qed.

Lemma greatest_above_threshold (cs : list float) (v : number) :
  greatest_or_zero cs v ->
  gt v (Float explicit_threshold) = true <->
  exists c, In c cs /\ gt (Float c) (Float explicit_threshold) = true.
Proof.
  intros [[-> Hnone] | (m & -> & Hin & Hpos & Hmax)]; split.
  - rewrite gt_Int_0_threshold. discriminate.
  - intros (c & Hc & Hgt). rewrite gt_Float_Float in Hgt.
    pose proof (positive_float_above _ _ explicit_threshold_positive Hgt) as Hp.
    rewrite (Hnone _ Hc) in Hp. discriminate.
  - intros Hgt. exists m. split; assumption.
  - intros (c & Hc & Hgt). rewrite gt_Float_Float in *.
    pose proof (positive_float_above _ _ explicit_threshold_positive Hgt) as Hp.
    destruct (SFltb c m) eqn:Hcm.
    + exact (SFltb_trans_positive _ _ _ explicit_threshold_positive Hgt Hcm).
    + rewrite (SFltb_total_positive m c Hpos Hp (Hmax _ Hc) Hcm). exact Hgt.
Qed.

Lemma confidence_of_aggregate (ds : list detection) (sc : dict number)
  (l : string) :
  aggregate ds = Ok sc ->
  gt (confidence_of sc l) (Float explicit_threshold) = true <->
  exists c, In (Detection l c) ds /\
            gt (Float c) (Float explicit_threshold) = true.
Proof.
  intros E. unfold confidence_of, get_default.
  destruct (get sc l) as [v|] eqn:Hv.
  - destruct (aggregate_value _ _ _ _ E Hv) as [_ Hg].
    rewrite (greatest_above_threshold _ _ Hg).
    split; intros (c & Hc & Hgt); exists c; split; auto;
      apply confidences_In_iff; exact Hc.
  - pose proof (aggregate_absent _ _ _ E Hv) as Hnil. split.
    + rewrite gt_Int_0_threshold. discriminate.
    + intros (c & Hc & _). apply confidences_In_iff in Hc.
      rewrite Hnil in Hc. destruct Hc.
Qed.

Lemma evaluate_appropriate (sc : dict number) :
  exists v,
    evaluate sc = Ok v /\ scores v = sc /\
    (appropriate v = false <->
     exists l, In l high_risk_labels /\
               gt (confidence_of sc l) (Float explicit_threshold) = true).
Proof.
  destruct (evaluate_returns sc)
    as [(label & c & (before & after & Hl & _ & Hgt) & _ & E) | [Hnone E]].
  - exists (rejected sc label c). split; [exact E|]. split; [reflexivity|].
    split; [|reflexivity]. intros _. exists label. split; [|exact Hgt].
    rewrite Hl. apply in_or_app. right. left. reflexivity.
  - exists (accepted sc). split; [exact E|]. split; [reflexivity|].
    split; [discriminate|]. intros (l & Hl & Hgt).
    rewrite (Hnone _ Hl) in Hgt. discriminate.
Qed.

(** X2.  The policy never raises: on every score map it returns a
    verdict that carries the map it was given, and the verdict is
    [appropriate=False] exactly when some high-risk label has a
    confidence above the explicit threshold (the lookup [scores[label]]
    of line 83 always finds its key). *)
Theorem evaluate_rejects_exactly_high_risk (sc : dict number) :
  exists v,
    evaluate sc = Ok v /\ scores v = sc /\
    (appropriate v = false <->
     exists l, In l high_risk_labels /\
               gt (get_default sc l (Int 0)) (Float explicit_threshold) = true) /\
    (appropriate v = true ->
     message v = "Content appropriate for teen users").
Proof.
  destruct (evaluate_appropriate sc) as (v & E & Hs & Hiff).
  exists v. split; [exact E|]. split; [exact Hs|]. split; [exact Hiff|].
  destruct (evaluate_returns sc) as [(label & c & _ & _ & E') | [_ E']];
    rewrite E' in E; inversion E; subst v; simpl; [discriminate | reflexivity].
Qed.

(** X3.  From detections to verdict: when every detection carries both
    keys, aggregation and policy return, and the verdict is
    [appropriate=False] exactly when some single detection of a
    high-risk label has a confidence above the explicit threshold.  A
    NaN confidence, which no comparison finds above the threshold, never
    rejects an image. *)
Theorem rejected_iff_offending_detection (ds : list detection) :
  Forall well_formed ds ->
  exists sc v,
    aggregate ds = Ok sc /\ evaluate sc = Ok v /\ scores v = sc /\
    (appropriate v = false <-> exists d, In d ds /\ offending d).
Proof.
  intros Hwf. destruct (aggregate_get ds Hwf) as (sc & E & _ & _).
  destruct (evaluate_appropriate sc) as (v & Ev & Hs & Hiff).
  exists sc, v. split; [exact E|]. split; [exact Ev|]. split; [exact Hs|].
  rewrite Hiff. split.
  - intros (l & Hl & Hgt). apply (confidence_of_aggregate _ _ _ E) in Hgt.
    destruct Hgt as (c & Hc & Hgt). exists (Detection l c).
    split; [exact Hc|]. exists l, c. auto.
  - intros (d & Hd & l & c & -> & Hl & Hgt). exists l. split; [exact Hl|].
    apply (confidence_of_aggregate _ _ _ E). exists c. auto.
Qed.

Lemma rejected_iff_offending_detection_witness :
  Forall well_formed odd_detections /\
  exists sc v,
    aggregate odd_detections = Ok sc /\ evaluate sc = Ok v /\
    appropriate v = true.
Proof.
  assert (Hwf : Forall well_formed odd_detections).
  { repeat constructor; eexists; eexists; reflexivity. }
  split; [exact Hwf|].
  destruct (rejected_iff_offending_detection odd_detections Hwf)
    as (sc & v & E & Ev & _ & Hiff).
  exists sc, v. split; [exact E|]. split; [exact Ev|].
  destruct (appropriate v) eqn:Ha; [reflexivity|].
  destruct (proj1 Hiff Logic.eq_refl) as (d & Hd & l & c & -> & Hl & Hgt).
  simpl in Hd.
  repeat (destruct Hd as [Hd | Hd];
          [inversion Hd; subst; first [discriminate Hgt
             | simpl in Hl; intuition discriminate]|]).
  destruct Hd.
Defined.

(** ** What the verdict depends on *)

Lemma first_offender_ext (sc sc' : dict number) (labels : list string)
  (label : string) :
  (forall l, In l labels -> get sc l = get sc' l) ->
  first_offender sc labels label -> first_offender sc' labels label.
Proof.
  intros Hext (before & after & -> & Hb & Hl).
  assert (Hc : forall l, In l (before ++ label :: after)%list ->
                         confidence_of sc' l = confidence_of sc l).
  { intros l Hin. unfold confidence_of, get_default.
    rewrite (Hext l Hin). reflexivity. }
  exists before, after. split; [reflexivity|]. split.
  - intros l Hin. rewrite Hc; [apply Hb, Hin|].
    apply in_or_app. left. exact Hin.
  - rewrite Hc; [exact Hl|]. apply in_or_app. right. left. reflexivity.
Qed.

Lemma first_offender_In (sc : dict number) (labels : list string)
  (label : string) :
  first_offender sc labels label -> In label labels.
Proof.
  intros (before & after & -> & _). apply in_or_app. right. left. reflexivity.
Qed.

Lemma evaluate_outcome_ext (sc sc' : dict number) (v v' : verdict) :
  (forall l, In l high_risk_labels -> get sc l = get sc' l) ->
  evaluate sc = Ok v -> evaluate sc' = Ok v' -> outcome v = outcome v'.
Proof.
  intros Hext E E'.
  destruct (evaluate_returns sc) as [(label & c & Hf & Hc & Ev) | [Hnone Ev]];
    rewrite Ev in E; inversion E; subst v; clear E.
  - pose proof (first_offender_ext _ _ _ _ Hext Hf) as Hf'.
    destruct (evaluate_rejects _ _ Hf') as (c' & Hc' & Ev').
    rewrite Ev' in E'. inversion E'. subst v'.
    rewrite (Hext _ (first_offender_In _ _ _ Hf)), Hc' in Hc.
    inversion Hc. reflexivity.
  - rewrite evaluate_accepts in E'.
    + inversion E'. reflexivity.
    + intros l Hl. unfold confidence_of, get_default.
      rewrite <- (Hext l Hl). apply Hnone, Hl.
Qed.

(** X4.  The verdict reads the five high-risk entries only: two score
    maps that agree on the labels of [high_risk_labels] get the same
    [appropriate] and the same [message], whatever they hold at
    [FACE_F], [EXPOSED_BELLY] or any other label. *)
Theorem verdict_reads_high_risk_only (sc sc' : dict number) (v v' : verdict) :
  (forall l, In l high_risk_labels -> get sc l = get sc' l) ->
  evaluate sc = Ok v -> evaluate sc' = Ok v' ->
  appropriate v = appropriate v' /\ message v = message v'.
Proof.
  intros Hext E E'.
  pose proof (evaluate_outcome_ext _ _ _ _ Hext E E') as Ho.
  inversion Ho. split; reflexivity.
Qed.

Lemma verdict_reads_high_risk_only_witness :
  (forall l, In l high_risk_labels ->
             get breast_and_face_scores l = get breast_scores l) /\
  exists v v',
    evaluate breast_and_face_scores = Ok v /\
    evaluate breast_scores = Ok v' /\
    appropriate v = appropriate v' /\ message v = message v'.
Proof.
  assert (Hext : forall l, In l high_risk_labels ->
                   get breast_and_face_scores l = get breast_scores l).
  { intros l Hl. simpl in Hl.
    repeat (destruct Hl as [<- | Hl]; [reflexivity|]). destruct Hl. }
  split; [exact Hext|].
  destruct (evaluate_appropriate breast_and_face_scores) as (v & E & _).
  destruct (evaluate_appropriate breast_scores) as (v' & E' & _).
  exists v, v'. split; [exact E|]. split; [exact E'|].
  exact (verdict_reads_high_risk_only _ _ _ _ Hext E E').
Defined.

Lemma aggregate_Permutation_get (ds ds' : list detection) (sc : dict number) :
  Permutation ds ds' -> aggregate ds = Ok sc ->
  exists sc', aggregate ds' = Ok sc' /\ forall l, get sc' l = get sc l.
Proof.
  intros HP E.
  pose proof (aggregate_from_well_formed _ _ _ E) as Hwf.
  assert (Hwf' : Forall well_formed ds').
  { apply Forall_forall. intros d Hd. rewrite Forall_forall in Hwf.
    apply Hwf. exact (Permutation_in _ (Permutation_sym HP) Hd). }
  destruct (aggregate_get ds Hwf) as (sc0 & E0 & Hget & _).
  assert (sc0 = sc) by congruence. subst sc0.
  destruct (aggregate_get ds' Hwf') as (sc' & E' & Hget' & _).
  exists sc'. split; [exact E'|].
  intros l. rewrite Hget, Hget'.
  pose proof (confidences_Permutation l _ _ HP) as HPc.
  destruct (confidences l ds) as [|c cs] eqn:Ec.
  - apply Permutation_nil in HPc. rewrite HPc. reflexivity.
  - destruct (confidences l ds') as [|c' cs'] eqn:Ec'.
    + apply Permutation_sym, Permutation_nil in HPc. discriminate.
    + f_equal. symmetry. apply running_max_Permutation. exact HPc.
Qed.

(** X5.  The order in which the detector lists its detections changes
    neither [appropriate] nor [message]: for every permutation of the
    detections the verdict differs at most in the order of the keys of
    [scores]. *)
Theorem verdict_any_order (ds ds' : list detection) (sc : dict number)
  (v : verdict) :
  Permutation ds ds' -> aggregate ds = Ok sc -> evaluate sc = Ok v ->
  exists sc' v',
    aggregate ds' = Ok sc' /\ evaluate sc' = Ok v' /\
    appropriate v' = appropriate v /\ message v' = message v /\
    forall l, get (scores v') l = get (scores v) l.
Proof.
  intros HP E Ev.
  destruct (aggregate_Permutation_get _ _ _ HP E) as (sc' & E' & Hget).
  destruct (evaluate_appropriate sc') as (v' & Ev' & Hs' & _).
  destruct (evaluate_appropriate sc) as (v0 & Ev0 & Hs & _).
  assert (v0 = v) by congruence. subst v0.
  exists sc', v'. split; [exact E'|]. split; [exact Ev'|].
  assert (Ho : outcome v' = outcome v).
  { apply (evaluate_outcome_ext sc' sc); auto. }
  inversion Ho. repeat split. intros l. rewrite Hs', Hs. apply Hget.
Qed.

Lemma verdict_any_order_witness :
  Permutation breast_and_face (rev breast_and_face) /\
  aggregate breast_and_face = Ok breast_and_face_scores /\
  exists v sc' v',
    evaluate breast_and_face_scores = Ok v /\
    aggregate (rev breast_and_face) = Ok sc' /\ evaluate sc' = Ok v' /\
    appropriate v' = appropriate v /\ message v' = message v.
Proof.
  split; [apply Permutation_rev|]. split; [reflexivity|].
  destruct (evaluate_appropriate breast_and_face_scores) as (v & Ev & _).
  destruct (verdict_any_order breast_and_face (rev breast_and_face)
              breast_and_face_scores v (Permutation_rev _) Logic.eq_refl Ev)
    as (sc' & v' & E' & Ev' & Ha & Hm & _).
  exists v, sc', v'. auto.
Defined.

(** X6.  More detections never clear an image: when the detections
    [ds] are rejected, every sequence that contains them all (and whose
    detections carry both keys) is rejected too. *)
Theorem rejection_persists (ds ds' : list detection) (sc : dict number)
  (v : verdict) :
  aggregate ds = Ok sc -> evaluate sc = Ok v -> appropriate v = false ->
  incl ds ds' -> Forall well_formed ds' ->
  exists sc' v',
    aggregate ds' = Ok sc' /\ evaluate sc' = Ok v' /\ appropriate v' = false.
Proof.
  intros E Ev Ha Hincl Hwf'.
  destruct (aggregate_get ds' Hwf') as (sc' & E' & _ & _).
  destruct (evaluate_appropriate sc') as (v' & Ev' & _ & Hiff').
  destruct (evaluate_appropriate sc) as (v0 & Ev0 & _ & Hiff).
  assert (v0 = v) by congruence. subst v0.
  exists sc', v'. split; [exact E'|]. split; [exact Ev'|].
  apply Hiff'. destruct (proj1 Hiff Ha) as (l & Hl & Hgt).
  exists l. split; [exact Hl|].
  apply (confidence_of_aggregate _ _ _ E').
  apply (confidence_of_aggregate _ _ _ E) in Hgt.
  destruct Hgt as (c & Hc & Hgt). exists c. split; [apply Hincl, Hc | exact Hgt].
Qed.

Lemma rejection_persists_witness :
  aggregate breast_and_face = Ok breast_and_face_scores /\
  incl breast_and_face (armpits ++ breast_and_face) /\
  Forall well_formed (armpits ++ breast_and_face) /\
  exists v sc' v',
    evaluate breast_and_face_scores = Ok v /\ appropriate v = false /\
    aggregate (armpits ++ breast_and_face) = Ok sc' /\
    evaluate sc' = Ok v' /\ appropriate v' = false.
Proof.
  assert (Hincl : incl breast_and_face (armpits ++ breast_and_face)).
  { apply incl_appr, incl_refl. }
  assert (Hwf : Forall well_formed (armpits ++ breast_and_face)).
  { repeat constructor; eexists; eexists; reflexivity. }
  split; [reflexivity|]. split; [exact Hincl|]. split; [exact Hwf|].
  destruct (evaluate_appropriate breast_and_face_scores) as (v & Ev & _ & Hiff).
  assert (Ha : appropriate v = false).
  { apply Hiff. exists "EXPOSED_BREAST_F". split; [simpl; tauto | reflexivity]. }
  destruct (rejection_persists breast_and_face (armpits ++ breast_and_face)
              breast_and_face_scores v Logic.eq_refl Ev Ha Hincl Hwf)
    as (sc' & v' & E' & Ev' & Ha').
  exists v, sc', v'. auto.
Defined.

(** ** Aggregation of two batches *)

Lemma confidences_app (l : string) (ds1 ds2 : list detection) :
  confidences l (ds1 ++ ds2)%list
  = (confidences l ds1 ++ confidences l ds2)%list.
Proof.
  induction ds1 as [|d ds1 IH]; simpl; [reflexivity|].
  destruct (class d), (score d); auto.
  destruct (String.eqb _ _); simpl; rewrite IH; reflexivity.
Qed.

Lemma gt_Int_0_Float (f : float) :
  positive_float f = true -> gt (Int 0) (Float f) = false.
Proof.
  intros Hp. rewrite <- gt_Float_Int_0 in Hp. unfold gt in *. simpl in *.
  destruct (compare_float_int f 0) as [[]|]; simpl; congruence.
Qed.

Lemma greatest_or_zero_app (cs1 cs2 : list float) (r1 r2 : number) :
  greatest_or_zero cs1 r1 -> greatest_or_zero cs2 r2 ->
  greatest_or_zero (cs1 ++ cs2) (max r1 r2).
Proof.
  intros [[-> Hn1] | (m1 & -> & Hin1 & Hp1 & Hmax1)]
         [[-> Hn2] | (m2 & -> & Hin2 & Hp2 & Hmax2)].
  - left. split; [reflexivity|]. intros c Hc.
    apply in_app_or in Hc. destruct Hc; auto.
  - rewrite max_Int_0, Hp2. right. exists m2. repeat split; auto.
    + apply in_or_app. right. exact Hin2.
    + intros c Hc. apply in_app_or in Hc. destruct Hc as [Hc | Hc]; auto.
      destruct (SFltb m2 c) eqn:Hlt; [|reflexivity].
      pose proof (positive_float_above _ _ Hp2 Hlt) as Hp.
      rewrite (Hn1 _ Hc) in Hp. discriminate.
  - unfold max. rewrite (gt_Int_0_Float _ Hp1).
    right. exists m1. repeat split; auto.
    + apply in_or_app. left. exact Hin1.
    + intros c Hc. apply in_app_or in Hc. destruct Hc as [Hc | Hc]; auto.
      destruct (SFltb m1 c) eqn:Hlt; [|reflexivity].
      pose proof (positive_float_above _ _ Hp1 Hlt) as Hp.
      rewrite (Hn2 _ Hc) in Hp. discriminate.
  - rewrite max_Float. destruct (SFltb m1 m2) eqn:H12.
    + right. exists m2. repeat split; auto.
      * apply in_or_app. right. exact Hin2.
      * intros c Hc. apply in_app_or in Hc. destruct Hc as [Hc | Hc]; auto.
        destruct (SFltb m2 c) eqn:Hlt; [|reflexivity].
        pose proof (Hmax1 _ Hc) as Hn.
        rewrite (SFltb_trans_positive _ _ _ Hp1 H12 Hlt) in Hn. discriminate.
    + right. exists m1. repeat split; auto.
      * apply in_or_app. left. exact Hin1.
      * intros c Hc. apply in_app_or in Hc. destruct Hc as [Hc | Hc]; auto.
        destruct (SFltb m1 c) eqn:Hlt; [|reflexivity].
        pose proof (Hmax2 _ Hc) as Hn.
        destruct (SFltb m2 m1) eqn:H21.
        { rewrite (SFltb_trans_positive _ _ _ Hp2 H21 Hlt) in Hn. discriminate. }
        { rewrite (SFltb_total_positive m1 m2 Hp1 Hp2 H12 H21) in Hlt.
          congruence. }
Qed.

(** X7.  Aggregating two batches one after the other gives, at every
    label, the [max] of what each batch gives on its own, and the entry
    of the one batch that has the label when the other has not. *)
Theorem aggregate_app (ds1 ds2 : list detection) (sc1 sc2 : dict number) :
  aggregate ds1 = Ok sc1 -> aggregate ds2 = Ok sc2 ->
  exists sc,
    aggregate (ds1 ++ ds2) = Ok sc /\
    forall l, get sc l = merge (get sc1 l) (get sc2 l).
Proof.
  intros E1 E2.
  pose proof (aggregate_from_well_formed _ _ _ E1) as Hwf1.
  pose proof (aggregate_from_well_formed _ _ _ E2) as Hwf2.
  destruct (aggregate_get _ (proj2 (Forall_app _ _ _) (conj Hwf1 Hwf2)))
    as (sc & E & Hget & _).
  exists sc. split; [exact E|].
  intros l. rewrite Hget, confidences_app.
  destruct (get sc1 l) as [v1|] eqn:H1; destruct (get sc2 l) as [v2|] eqn:H2;
    cbn [merge].
  - destruct (aggregate_value _ _ _ _ E1 H1) as [Hne1 Hg1].
    destruct (aggregate_value _ _ _ _ E2 H2) as [Hne2 Hg2].
    destruct (confidences l ds1 ++ confidences l ds2)%list as [|c cs] eqn:Ec.
    + apply app_eq_nil in Ec. destruct Ec. contradiction.
    + f_equal. rewrite <- Ec.
      apply (greatest_or_zero_unique (confidences l ds1 ++ confidences l ds2)).
      * apply running_max_spec.
      * apply greatest_or_zero_app; assumption.
  - rewrite (aggregate_absent _ _ _ E2 H2), app_nil_r.
    destruct (aggregate_get _ Hwf1) as (sc1' & E1' & Hget1 & _).
    assert (sc1' = sc1) by congruence. subst sc1'.
    rewrite <- Hget1. exact H1.
  - rewrite (aggregate_absent _ _ _ E1 H1). cbn [app].
    destruct (aggregate_get _ Hwf2) as (sc2' & E2' & Hget2 & _).
    assert (sc2' = sc2) by congruence. subst sc2'.
    rewrite <- Hget2. exact H2.
  - rewrite (aggregate_absent _ _ _ E1 H1), (aggregate_absent _ _ _ E2 H2).
    reflexivity.
Qed.

Lemma aggregate_app_witness :
  aggregate first_batch
  = Ok [ ("FACE_F", Float literal_0_25); ("EXPOSED_BELLY", Float literal_0_9) ] /\
  aggregate second_batch
  = Ok [ ("FACE_F", Float literal_0_95);
         ("EXPOSED_BREAST_F", Float literal_0_25) ] /\
  exists sc,
    aggregate (first_batch ++ second_batch) = Ok sc /\
    get sc "FACE_F" = Some (Float literal_0_95) /\
    get sc "EXPOSED_BELLY" = Some (Float literal_0_9) /\
    get sc "EXPOSED_BREAST_F" = Some (Float literal_0_25) /\
    get sc "FACE_M" = None.
Proof.
  split; [reflexivity|]. split; [reflexivity|].
  destruct (aggregate_app first_batch second_batch _ _
              Logic.eq_refl Logic.eq_refl) as (sc & E & Hget).
  exists sc. split; [exact E|].
  repeat split; rewrite Hget; reflexivity.
Defined.

(** ** Order of the keys of the scores *)

Lemma existsb_contains {V : Type} (d : dict V) (l : string) :
  existsb (String.eqb l) (keys d) = contains d l.
Proof.
  unfold contains. induction d as [|[k v] d IH]; simpl; [reflexivity|].
  rewrite (String.eqb_sym l k). destruct (String.eqb k l); simpl; auto.
Qed.

Lemma first_seen_ext (ds : list detection) :
  forall s1 s2 : list string,
    (forall x, In x s1 <-> In x s2) -> first_seen s1 ds = first_seen s2 ds.
Proof.
  induction ds as [|d ds IH]; intros s1 s2 Hs; simpl; [reflexivity|].
  destruct (class d) as [l|]; [|apply IH, Hs].
  assert (He : existsb (String.eqb l) s1 = existsb (String.eqb l) s2).
  { apply eq_true_iff_eq. rewrite !existsb_exists.
    split; intros (x & Hx & E); exists x; split; auto; apply Hs; exact Hx. }
  rewrite He. destruct (existsb (String.eqb l) s2); [apply IH, Hs|].
  f_equal. apply IH. intros x. simpl. rewrite (Hs x). reflexivity.
Qed.

Lemma aggregate_step_keys (sc sc' : dict number) (l : string) (c : float) :
  aggregate_step sc (Detection l c) = Ok sc' ->
  keys sc' = if contains sc l then keys sc else (keys sc ++ [l])%list.
Proof.
  unfold aggregate_step, getitem. simpl.
  destruct (contains sc l) eqn:Ec; simpl.
  - unfold contains in Ec. destruct (get sc l) as [v|] eqn:Eg; [|discriminate].
    simpl. intros E. inversion E.
    rewrite keys_set. unfold contains. rewrite Eg. reflexivity.
  - rewrite get_set_same. simpl. intros E. inversion E.
    rewrite keys_set. unfold contains at 1. rewrite get_set_same.
    rewrite keys_set, Ec. reflexivity.
Qed.

Lemma aggregate_from_keys (ds : list detection) :
  forall sc0 sc : dict number,
    aggregate_from sc0 ds = Ok sc ->
    keys sc = (keys sc0 ++ first_seen (keys sc0) ds)%list.
Proof.
  induction ds as [|d ds IH]; intros sc0 sc E; simpl in *.
  - inversion E. rewrite app_nil_r. reflexivity.
  - destruct (aggregate_step sc0 d) as [sc1|e] eqn:E1; [|discriminate].
    simpl in E.
    destruct (aggregate_step_well_formed _ _ _ E1) as (l & c & ->). simpl.
    rewrite (IH _ _ E), (aggregate_step_keys _ _ _ _ E1), existsb_contains.
    destruct (contains sc0 l); [reflexivity|].
    rewrite <- app_assoc. simpl. do 2 f_equal.
    apply first_seen_ext. intros x. rewrite in_app_iff. simpl. tauto.
Qed.

(** X8.  The keys of the aggregated scores are the labels of the
    detections, each once, in the order in which the detector first
    reported them; this is the order in which [json.dumps] prints
    them. *)
Theorem aggregate_keys_first_seen (ds : list detection) (sc : dict number) :
  aggregate ds = Ok sc ->
  keys sc = first_seen [] ds /\ NoDup (keys sc) /\
  (forall l, In l (keys sc) <-> exists c, In (Detection l c) ds).
Proof.
  intros E. split; [exact (aggregate_from_keys _ _ _ E)|].
  destruct (aggregate_get ds (aggregate_from_well_formed _ _ _ E))
    as (sc' & E' & Hget & Hd).
  assert (sc' = sc) by congruence. subst sc'.
  split; [exact Hd|].
  intros l. rewrite <- contains_keys. unfold contains. rewrite Hget. split.
  - destruct (confidences l ds) as [|c cs] eqn:Ec; [discriminate|].
    intros _. exists c. apply confidences_In_iff. rewrite Ec. left. reflexivity.
  - intros (c & Hc). apply confidences_In_iff in Hc.
    destruct (confidences l ds); [destruct Hc | reflexivity].
Qed.

Lemma aggregate_keys_first_seen_witness :
  aggregate sample_detections
  = Ok [ ("FACE_F", Float literal_0_95); ("EXPOSED_BELLY", Float literal_0_9) ] /\
  keys [ ("FACE_F", Float literal_0_95); ("EXPOSED_BELLY", Float literal_0_9) ]
  = first_seen [] sample_detections /\
  first_seen [] sample_detections = ["FACE_F"; "EXPOSED_BELLY"].
Proof.
  split; [reflexivity|].
  split; [|reflexivity].
  exact (proj1 (aggregate_keys_first_seen sample_detections _ Logic.eq_refl)).
Defined.

(** ** A detection without one of its keys *)

Lemma aggregate_from_app (ds1 ds2 : list detection) :
  forall sc : dict number,
    aggregate_from sc (ds1 ++ ds2)
    = (let? sc' := aggregate_from sc ds1 in aggregate_from sc' ds2).
Proof.
  induction ds1 as [|d ds1 IH]; intros sc; simpl; [reflexivity|].
  destruct (aggregate_step sc d) as [sc1|e]; simpl; [apply IH | reflexivity].
Qed.

Lemma aggregate_step_missing_key (sc : dict number) (d : detection)
  (k : string) :
  missing_key d = Some k -> aggregate_step sc d = Raise (KeyError k).
Proof.
  unfold missing_key, aggregate_step, getitem_class, getitem_score.
  destruct (class d) as [l|], (score d) as [c|]; simpl; intros E;
    inversion E; reflexivity.
Qed.

Lemma aggregate_missing_key (before after : list detection) (d : detection)
  (k : string) :
  Forall well_formed before -> missing_key d = Some k ->
  aggregate (before ++ d :: after) = Raise (KeyError k).
Proof.
  intros Hwf Hk. unfold aggregate. rewrite aggregate_from_app.
  destruct (aggregate_from_get before Hwf empty) as (sc & E & _).
  rewrite E. simpl. rewrite (aggregate_step_missing_key _ _ _ Hk). reflexivity.
Qed.

Section MissingKey.

Context `{Collaborators}.

(** X9.  The first detection that lacks ['class'] or ['score'] stops the
    aggregation with [KeyError] of the missing key (of ['class'] when
    both are missing), whatever the detections after it; the scores
    gathered before it are dropped and [check_image_content] answers
    with the fail-closed verdict whose message ends in the quoted
    key. *)
Theorem missing_key_fails_closed (before after : list detection)
  (d : detection) (k : string) :
  Forall well_formed before -> missing_key d = Some k ->
  aggregate (before ++ d :: after) = Raise (KeyError k) /\
  forall (x : string) (p p1 : process) (h : NudeDetector),
    init_detector p = (Ok tt, p1) -> detector p1 = Some h ->
    detections_of h x = Ok (before ++ d :: after)%list ->
    check_image_content x p
    = (Ok {| appropriate := false;
             scores := empty;
             message := "Content filtering error: " ++ PyStr.repr k |}, p1).
Proof.
  intros Hwf Hk.
  pose proof (aggregate_missing_key before after d k Hwf Hk) as E.
  split; [exact E|].
  intros x p p1 h E1 E2 E3.
  rewrite (check_image_content_initialised _ _ _ _ E1 E2).
  unfold classify. rewrite E3. cbn [bind_result]. rewrite E. reflexivity.
Qed.

End MissingKey.

Lemma missing_key_fails_closed_witness :
  Forall well_formed [ Detection "FACE_F" literal_0_9 ] /\
  missing_key scoreless = Some "score" /\
  @check_image_content broken "land" (@start broken Imported)
  = (Ok {| appropriate := false;
           scores := empty;
           message := "Content filtering error: 'score'" |},
     @initialised broken (@start broken Imported) tt).
Proof.
  assert (Hwf : Forall well_formed [ Detection "FACE_F" literal_0_9 ]).
  { repeat constructor. eexists. eexists. reflexivity. }
  split; [exact Hwf|]. split; [reflexivity|].
  exact (proj2 (@missing_key_fails_closed broken
                  [ Detection "FACE_F" literal_0_9 ] breast_and_face
                  scoreless "score" Hwf Logic.eq_refl)
           "land" (@start broken Imported)
           (@initialised broken (@start broken Imported) tt) tt
           Logic.eq_refl Logic.eq_refl Logic.eq_refl).
Defined.

(** ** What a request does to the process *)

Section Frame.

Context `{Collaborators}.

Lemma init_detector_state (p : process) :
  snd (init_detector p) = p \/
  detector p = None /\
  ((exists d, deps p = Imported /\ NudeDetector_new (constructed p) = Ok d /\
              snd (init_detector p) = initialised p d) \/
   (exists e, deps p = Imported /\ NudeDetector_new (constructed p) = Raise e /\
              snd (init_detector p) = attempted p)).
Proof.
  destruct (deps p) as [|err] eqn:Ed.
  - destruct (detector p) as [h|] eqn:Eh.
    + left. rewrite (init_detector_ready p h Ed Eh). reflexivity.
    + right. split; [reflexivity|].
      destruct (NudeDetector_new (constructed p)) as [d|e] eqn:En.
      * left. exists d. rewrite (init_detector_builds p d Ed Eh En). auto.
      * right. exists e. rewrite (init_detector_fails p e Ed Eh En). auto.
  - left. rewrite (init_detector_missing p err Ed). reflexivity.
Qed.

(** X10.  Whatever the input and whatever stage fails,
    [check_image_content] leaves the process as [init_detector] alone
    leaves it: it writes nothing to standard output, keeps
    [DEPS_AVAILABLE], and a detector built at the start of a request is
    kept even when that request then fails to decode. *)
Theorem check_image_content_frame (x : string) (p : process) :
  snd (check_image_content x p) = snd (init_detector p) /\
  stdout (snd (check_image_content x p)) = stdout p /\
  deps (snd (check_image_content x p)) = deps p /\
  (forall d, deps p = Imported -> detector p = None ->
             NudeDetector_new (constructed p) = Ok d ->
             snd (check_image_content x p) = initialised p d).
Proof.
  pose proof (check_image_content_state x p) as Hs.
  split; [exact Hs|]. rewrite Hs.
  split; [exact (proj1 (init_detector_streams p))|]. split.
  - destruct (init_detector_state p)
      as [-> | [_ [(d & _ & _ & ->) | (e & _ & _ & ->)]]]; reflexivity.
  - intros d Ed Eh En. rewrite (init_detector_builds p d Ed Eh En). reflexivity.
Qed.

(** X11.  A construction of the detector that raises is not remembered:
    the request fails closed with the error of the constructor and
    leaves the handle unset, and the next request constructs again and,
    if that succeeds, is classified with the new detector. *)
Theorem construction_is_retried (x y : string) (p : process) (e : exception)
  (d : NudeDetector) :
  deps p = Imported -> detector p = None ->
  NudeDetector_new (constructed p) = Raise e ->
  NudeDetector_new (S (constructed p)) = Ok d ->
  check_image_content x p = (Ok (fail_closed e), attempted p) /\
  detector (attempted p) = None /\
  check_image_content y (attempted p)
  = (Ok (caught (classify d y)), initialised (attempted p) d).
Proof.
  intros Ed Eh En En'.
  split; [|split; [exact Eh|]].
  - apply check_image_content_uninitialised.
    apply init_detector_fails; assumption.
  - apply (check_image_content_initialised y (attempted p) _ d);
      [|reflexivity].
    apply init_detector_builds; assumption.
Qed.

Lemma requests_ready (xs : list string) :
  forall (p : process) (h : NudeDetector),
    detector p = Some h -> requests xs p = p.
Proof.
  induction xs as [|x xs IH]; intros p h Eh; simpl; [reflexivity|].
  rewrite check_image_content_state, (init_detector_keeps p h Eh).
  exact (IH p h Eh).
Qed.

(** X12.  Over any number of requests served one after the other, the
    notice [NudeNet detector initialized] is written at most once, and
    only if the handle was unset at the start; standard output is never
    written; and once the handle is set the requests leave the process
    untouched. *)
Theorem requests_initialise_once (xs : list string) (p : process) :
  stdout (requests xs p) = stdout p /\
  (stderr (requests xs p) = stderr p \/
   detector p = None /\
   stderr (requests xs p)
   = stderr p ++ "NudeNet detector initialized" ++ PyStr.char PyStr.newline) /\
  (forall h, detector p = Some h -> requests xs p = p).
Proof.
  split; [|split; [|intros h Eh; exact (requests_ready xs p h Eh)]];
    revert p; induction xs as [|x xs IH]; intros p; simpl; auto;
    rewrite check_image_content_state;
    destruct (init_detector_state p)
      as [-> | [Eh [(d & _ & _ & ->) | (e & _ & _ & ->)]]];
    try apply IH.
  - rewrite (requests_ready xs (initialised p d) d Logic.eq_refl). reflexivity.
  - rewrite IH. reflexivity.
  - right. split; [exact Eh|].
    rewrite (requests_ready xs (initialised p d) d Logic.eq_refl). reflexivity.
  - destruct (IH (attempted p)) as [E | [_ E]]; [left | right; split; auto];
      exact E.
Qed.

End Frame.

Lemma check_image_content_frame_witness :
  @deps demo demo_start = Imported /\
  @detector demo demo_start = None /\
  @b64decode demo "abc" = Raise (OtherException "Incorrect padding") /\
  snd (@check_image_content demo "abc" demo_start) = demo_ready.
Proof.
  split; [reflexivity|]. split; [reflexivity|]. split; [reflexivity|].
  exact (proj2 (proj2 (proj2 (@check_image_content_frame demo "abc" demo_start)))
           tt Logic.eq_refl Logic.eq_refl Logic.eq_refl).
Defined.

Lemma construction_is_retried_witness :
  @NudeDetector_new flaky 0 = Raise (OtherException "model file not found") /\
  @NudeDetector_new flaky 1 = Ok tt /\
  @check_image_content flaky "bust" (@start flaky Imported)
  = (Ok {| appropriate := false;
           scores := empty;
           message := "Content filtering error: model file not found" |},
     @attempted flaky (@start flaky Imported)) /\
  appropriate
    (fst_verdict
       (fst (@check_image_content flaky "land"
               (@attempted flaky (@start flaky Imported))))) = true.
Proof.
  split; [reflexivity|]. split; [reflexivity|].
  destruct (@construction_is_retried flaky "bust" "land" (@start flaky Imported)
              (OtherException "model file not found") tt
              Logic.eq_refl Logic.eq_refl Logic.eq_refl Logic.eq_refl)
    as (E1 & _ & E2).
  split; [exact E1|]. rewrite E2. reflexivity.
Defined.

Lemma requests_initialise_once_witness :
  @detector demo demo_start = None /\
  @stdout demo (@requests demo ["bust"; "abc"; "arms"] demo_start) = "" /\
  @stderr demo (@requests demo ["bust"; "abc"; "arms"] demo_start)
  = "NudeNet detector initialized" ++ PyStr.char PyStr.newline.
Proof.
  split; [reflexivity|].
  destruct (@requests_initialise_once demo ["bust"; "abc"; "arms"] demo_start)
    as (Hout & Herr & _).
  split; [exact Hout|]. reflexivity.
Defined.

(** ** Scores and the set of detections *)

(** X13.  The scores depend only on which detections occur: two
    sequences with the same detections, in any order and any number of
    copies, aggregate to maps with the same lookups. *)
Theorem aggregate_same_detections (ds ds' : list detection) (sc : dict number) :
  aggregate ds = Ok sc -> (forall d, In d ds <-> In d ds') ->
  exists sc', aggregate ds' = Ok sc' /\ forall l, get sc' l = get sc l.
Proof.
  intros E Hsame.
  pose proof (aggregate_from_well_formed _ _ _ E) as Hwf.
  assert (Hwf' : Forall well_formed ds').
  { apply Forall_forall. intros d Hd. rewrite Forall_forall in Hwf.
    apply Hwf, Hsame, Hd. }
  destruct (aggregate_get ds Hwf) as (sc0 & E0 & Hget & _).
  assert (sc0 = sc) by congruence. subst sc0.
  destruct (aggregate_get ds' Hwf') as (sc' & E' & Hget' & _).
  exists sc'. split; [exact E'|].
  assert (Hc : forall l c, In c (confidences l ds) <-> In c (confidences l ds')).
  { intros l c. rewrite !confidences_In_iff. apply Hsame. }
  intros l. rewrite Hget, Hget'. specialize (Hc l).
  destruct (confidences l ds) as [|c cs] eqn:Ec;
    destruct (confidences l ds') as [|c' cs'] eqn:Ec'.
  - reflexivity.
  - destruct (proj2 (Hc c') (or_introl Logic.eq_refl)).
  - destruct (proj1 (Hc c) (or_introl Logic.eq_refl)).
  - f_equal. apply (greatest_or_zero_unique (c :: cs)).
    + apply (greatest_or_zero_members (c' :: cs')); [|apply running_max_spec].
      intros x. symmetry. apply Hc.
    + apply running_max_spec.
Qed.

Lemma aggregate_same_detections_witness :
  aggregate first_batch
  = Ok [ ("FACE_F", Float literal_0_25); ("EXPOSED_BELLY", Float literal_0_9) ] /\
  (forall d, In d first_batch <-> In d (rev first_batch ++ first_batch)) /\
  exists sc',
    aggregate (rev first_batch ++ first_batch) = Ok sc' /\
    get sc' "FACE_F" = Some (Float literal_0_25) /\
    get sc' "EXPOSED_BELLY" = Some (Float literal_0_9).
Proof.
  assert (Hsame : forall d, In d first_batch
                            <-> In d (rev first_batch ++ first_batch)).
  { intros d. rewrite in_app_iff, <- in_rev. tauto. }
  split; [reflexivity|]. split; [exact Hsame|].
  destruct (aggregate_same_detections first_batch _ _ Logic.eq_refl Hsame)
    as (sc' & E' & Hget).
  exists sc'. split; [exact E'|]. split; rewrite Hget; reflexivity.
Defined.

(** ** Without the dependencies *)

Section WithoutDependencies.

Context `{Collaborators}.

(** X14.  When the imports of lines 8-15 failed, a run with one argument
    answers the same for every image: it decodes nothing, constructs no
    detector, writes nothing to standard error, prints the fail-closed
    verdict that quotes the import error, and ends with status 0. *)
Theorem main_without_dependencies (prog arg : string) (p : process)
  (err : string) :
  deps p = ImportFailed err ->
  let v := {| appropriate := false;
              scores := empty;
              message := "Content filtering error: "
                         ++ "Required dependencies not available: " ++ err |} in
  check_image_content arg p = (Ok v, p) /\
  main [prog; arg] p = (Ok tt, printed p (Json.dumps v)) /\
  exit_status (fst (main [prog; arg] p)) = 0.
Proof.
  intros Ed v.
  assert (E : check_image_content arg p = (Ok v, p)).
  { exact (check_image_content_uninitialised arg p p _
             (init_detector_missing p err Ed)). }
  split; [exact E|].
  rewrite (main_classifies _ _ _ _ _ E). split; reflexivity.
Qed.

End WithoutDependencies.

Lemma main_without_dependencies_witness :
  @deps demo (@start demo (ImportFailed "No module named 'nudenet'"))
  = ImportFailed "No module named 'nudenet'" /\
  @stdout demo
    (snd (@main demo ["content-filter.py"; "bust"]
            (@start demo (ImportFailed "No module named 'nudenet'"))))
  = "{" ++ quoted "appropriate" ++ ": false, "
        ++ quoted "scores" ++ ": {}, "
        ++ quoted "message" ++ ": "
        ++ quoted ("Content filtering error: Required dependencies not "
                   ++ "available: No module named 'nudenet'")
        ++ "}" ++ PyStr.char PyStr.newline.
Proof.
  split; [reflexivity|].
  destruct (@main_without_dependencies demo "content-filter.py" "bust"
              (@start demo (ImportFailed "No module named 'nudenet'"))
              "No module named 'nudenet'" Logic.eq_refl) as (_ & E & _).
  rewrite E. reflexivity.
Defined.
